(** * PluginServer: the gateway side of add-on plugins

    A shallow embedding of [PluginServer] (the TypeScript class of the
    gateway's plugin subsystem) and the properties of its registry, its
    message dispatch and its registration handshake.

    The server is a single-threaded, message-driven object.  Its methods are
    embedded as computations of a state monad over a [World]: the fields of
    the server, the store of [Plugin] objects (so that "the same instance" is
    equality of store locations), the promise chains that are started and not
    yet settled, and the trace of calls the server makes on its
    collaborators (add-on manager, plugins, sockets, console).

    The calls that hand a proxy, a message or control to a collaborator
    ([this.manager.addAdapter(adapter)], [plugin.onMsg(msg)],
    [plugin.start()], [ws.send(...)]) are each the last thing their method
    does, so whatever the collaborator does in turn, calling back into the
    server included, comes after the method's own effects: a method is its
    effect on the world followed by the call, which the trace records. *)

From Stdlib Require Import ZArith.
From stdpp Require Import gmap strings list fin_maps.

Set Default Proof Using "Type".
Open Scope Z_scope.
Open Scope string_scope.
Open Scope list_scope.

(** ** JavaScript values *)

(** The values that travel through the handshake: settings read from the
    settings store and the object literal handed to [JSON.stringify].
    Numbers are the integral ones. *)
#[warnings="-register-all"]
Inductive jsval : Type :=
| JUndefined
| JNull
| JBool (b : bool)
| JNum (n : Z)
| JStr (s : string)
| JObj (props : list (string * jsval)).

(** ToBoolean, as used by [if (v)] and [a && b]. *)
Definition truthy (v : jsval) : bool :=
  match v with
  | JUndefined | JNull => false
  | JBool b => b
  | JNum n => negb (Z.eqb n 0)
  | JStr s => negb (String.eqb s "")
  | JObj _ => true
  end.

(** A JSON document: what the text produced by [JSON.stringify] denotes. *)
#[warnings="-register-all"]
Inductive json : Type :=
| JsNull
| JsBool (b : bool)
| JsNum (n : Z)
| JsStr (s : string)
| JsObj (members : list (string * json)).

(** [JSON.stringify(v)]: [undefined] at the top gives [undefined] (here
    [None]); a property whose value is [undefined] is left out of its
    object; members keep the order of the properties. *)
Fixpoint JSON_stringify (v : jsval) : option json :=
  match v with
  | JUndefined => None
  | JNull => Some JsNull
  | JBool b => Some (JsBool b)
  | JNum n => Some (JsNum n)
  | JStr s => Some (JsStr s)
  | JObj props =>
      Some (JsObj ((fix members (ps : list (string * jsval)) : list (string * json) :=
                      match ps with
                      | [] => []
                      | (k, x) :: ps' =>
                          match JSON_stringify x with
                          | Some j => (k, j) :: members ps'
                          | None => members ps'
                          end
                      end) props))
  end.

(** Property read [o.k] on an object given by its property list. *)
Fixpoint get_prop {A : Type} (k : string) (props : list (string * A)) : option A :=
  match props with
  | [] => None
  | (k', x) :: ps => if String.eqb k k' then Some x else get_prop k ps
  end.

(** Property write [o.k = x]: an existing property keeps its place. *)
Fixpoint set_prop {A : Type} (k : string) (x : A) (props : list (string * A))
  : list (string * A) :=
  match props with
  | [] => [(k, x)]
  | (k', y) :: ps =>
      if String.eqb k k' then (k, x) :: ps else (k', y) :: set_prop k x ps
  end.

(** Member read on a JSON document. *)
Definition member (k : string) (j : json) : option json :=
  match j with
  | JsObj ms => get_prop k ms
  | _ => None
  end.

(** ** Messages, sockets, plugins *)

(** Object identities: locations of [Plugin] objects in the store, and
    handles of objects owned by collaborators. *)
Abbreviation loc := nat (only parsing).
Abbreviation WebSocket := nat (only parsing).
Abbreviation AddonManager := nat (only parsing).
Abbreviation Proxy := nat (only parsing).

(** A plugin id as it occurs at run time: [msg.data.pluginId] is a string, or
    [undefined] ([None]) when the property is absent. *)
Abbreviation PluginId := (option string) (only parsing).

(** Truthiness of [msg.data.pluginId]. *)
Definition truthy_id (p : PluginId) : bool :=
  match p with
  | None => false
  | Some s => truthy (JStr s)
  end.

Record Data : Type := mkData {
  pluginId : PluginId;
  fields : list (string * jsval)   (* the message-specific properties *)
}.

Record Message : Type := mkMessage {
  messageType : Z;
  data : Data
}.

Record MessageTypeT : Type := mkMessageType {
  PLUGIN_REGISTER_REQUEST : Z;
  PLUGIN_REGISTER_RESPONSE : Z
}.

Record UserProfileT : Type := mkUserProfile {
  addonsDir : string;
  baseDir : string;
  configDir : string;
  dataDir : string;
  mediaDir : string;
  logDir : string;
  gatewayDir : string
}.

Record ManifestMoziot : Type := mkMoziot { manifest_exec : string }.

Record Manifest : Type := mkManifest {
  name : string;
  moziot : ManifestMoziot
}.

(** Modelled from the spec: the [Plugin] class, which lives in [./plugin]
    and not in the module of the server.  Following the data model, a plugin
    has its id, a launch descriptor ([exec], [execPath], absent until the
    gateway loads the plugin), the channel handle [ws] (undefined before
    registration) and the verbose flag inherited from the server. *)
Record Plugin : Type := mkPlugin {
  plugin_id : PluginId;
  plugin_verbose : option bool;
  exec : option string;
  execPath : option string;
  ws : option WebSocket
}.

Definition set_ws (s : WebSocket) (p : Plugin) : Plugin :=
  mkPlugin (plugin_id p) (plugin_verbose p) (exec p) (execPath p) (Some s).

Definition set_exec (e : string) (p : Plugin) : Plugin :=
  mkPlugin (plugin_id p) (plugin_verbose p) (Some e) (execPath p) (ws p).

Definition set_execPath (e : string) (p : Plugin) : Plugin :=
  mkPlugin (plugin_id p) (plugin_verbose p) (exec p) (Some e) (ws p).

(** ** Promises *)

(** How a promise settles; the pending state is a chain that has not been
    run yet (see [jobs] below). *)
Inductive Settled (A : Type) : Type :=
| Fulfilled (a : A)
| Rejected (reason : jsval).
Arguments Fulfilled {A} a.
Arguments Rejected {A} reason.

(** ** The world *)

(** The variables a handshake's callbacks close over. *)
Record Closure : Type := mkClosure {
  c_msg : Message;
  c_ws : WebSocket;
  language : jsval;
  units : list (string * jsval)
}.

(** Calls the server makes on its collaborators. *)
Inductive Event : Type :=
| EvConsoleLog (msg : Message)
| EvManagerAddAdapter (mgr : AddonManager) (adapter : Proxy)
| EvManagerAddNotifier (mgr : AddonManager) (notifier : Proxy)
| EvManagerAddAPIHandler (mgr : AddonManager) (handler : Proxy)
| EvPluginOnMsg (plugin : loc) (msg : Message)
| EvPluginStart (plugin : loc)
| EvWsSend (socket : WebSocket) (text : option json)
| EvIpcSocketNew (verbose : option bool)
| EvIpcSocketClose.

Record World : Type := mkWorld {
  manager : AddonManager;
  verbose : option bool;
  plugins : gmap (option string) nat;
  store : list Plugin;
  jobs : list Closure;
  trace : list Event
}.

(** ** The monad of methods *)

Definition Handler (A : Type) : Type := World -> A * World.

Definition ret {A} (a : A) : Handler A := fun w => (a, w).

Definition bind {A B} (m : Handler A) (k : A -> Handler B) : Handler B :=
  fun w => let (a, w') := m w in k a w'.

Notation "x <- m ;; k" := (bind m (fun x => k))
  (at level 100, m at next level, right associativity).
Notation "m ;; k" := (bind m (fun _ => k))
  (at level 100, right associativity).

Definition gets {A} (f : World -> A) : Handler A := fun w => (f w, w).
Definition modify (f : World -> World) : Handler unit := fun w => (tt, f w).

(** The world a method leaves behind. *)
Definition exec_in {A} (m : Handler A) (w : World) : World := (m w).2.

Definition emit (e : Event) : Handler unit :=
  modify (fun w => mkWorld (manager w) (verbose w) (plugins w) (store w)
                     (jobs w) (trace w ++ [e])).

Definition with_plugins (f : gmap (option string) nat -> gmap (option string) nat)
  : Handler unit :=
  modify (fun w => mkWorld (manager w) (verbose w) (f (plugins w)) (store w)
                     (jobs w) (trace w)).

Definition with_store (f : list Plugin -> list Plugin) : Handler unit :=
  modify (fun w => mkWorld (manager w) (verbose w) (plugins w) (f (store w))
                     (jobs w) (trace w)).

Definition with_jobs (f : list Closure -> list Closure) : Handler unit :=
  modify (fun w => mkWorld (manager w) (verbose w) (plugins w) (store w)
                     (f (jobs w)) (trace w)).

(** Modelled from the spec: [new Plugin(pluginId, this)], the constructor of
    the [Plugin] class of [./plugin].  It makes a fresh object that knows
    its id and inherits the server's verbose flag; launch descriptor and
    channel are not set. *)
Definition new_Plugin (p : PluginId) : Handler loc :=
  r <- gets (fun w => length (store w)) ;;
  v <- gets verbose ;;
  with_store (fun st => st ++ [mkPlugin p v None None None]) ;;
  ret r.

(** Field write on the object at [r]. *)
Definition update_plugin (r : loc) (f : Plugin -> Plugin) : Handler unit :=
  with_store (alter f r).

(** ** PluginServer *)

(** [new PluginServer(addonManager, {verbose})]. *)
Definition constructor (addonManager : AddonManager) (v : option bool) : World :=
  mkWorld addonManager v ∅ [] [] [EvIpcSocketNew v].

(** [getPlugin(pluginId)]: [this.plugins.get(pluginId)]. *)
Definition getPlugin (p : PluginId) : Handler (option loc) :=
  gets (fun w => plugins w !! p).

(** [registerPlugin(pluginId)]. A stored plugin is an object, hence truthy:
    the test [if (plugin)] is the test that the lookup found one. *)
Definition registerPlugin (p : PluginId) : Handler loc :=
  found <- gets (fun w => plugins w !! p) ;;
  match found with
  | Some plugin => ret plugin
  | None =>
      plugin <- new_Plugin p ;;
      with_plugins (insert p plugin) ;;
      ret plugin
  end.

(** [unregisterPlugin(pluginId)]. *)
Definition unregisterPlugin (p : PluginId) : Handler unit :=
  with_plugins (delete p).

(** [addAdapter(adapter)], [addNotifier(notifier)], [addAPIHandler(handler)]. *)
Definition addAdapter (adapter : Proxy) : Handler unit :=
  m <- gets manager ;; emit (EvManagerAddAdapter m adapter).

Definition addNotifier (notifier : Proxy) : Handler unit :=
  m <- gets manager ;; emit (EvManagerAddNotifier m notifier).

Definition addAPIHandler (handler : Proxy) : Handler unit :=
  m <- gets manager ;; emit (EvManagerAddAPIHandler m handler).

(** [loadPlugin(pluginPath, manifest)]. *)
Definition loadPlugin (pluginPath : string) (manifest : Manifest) : Handler unit :=
  plugin <- registerPlugin (Some (name manifest)) ;;
  update_plugin plugin (set_exec (manifest_exec (moziot manifest))) ;;
  update_plugin plugin (set_execPath pluginPath) ;;
  emit (EvPluginStart plugin).

(** [shutdown()]. *)
Definition shutdown : Handler unit := emit EvIpcSocketClose.

(** [this.verbose && console.log('PluginServer: Rcvd:', msg)]. *)
Definition log_rcvd (msg : Message) : Handler unit :=
  v <- gets verbose ;;
  match v with
  | Some true => emit (EvConsoleLog msg)
  | _ => ret tt
  end.

(** *** Promise chains *)

(** A promise chain is run when its lookups have been answered; its
    callbacks work on the variables they close over and on the world. *)
Definition Promise (A : Type) : Type :=
  Closure * World -> Settled A * (Closure * World).

Definition Promise_resolve {A} (a : A) : Promise A := fun s => (Fulfilled a, s).

(** [p.then(f)]: [f] runs on fulfilment, a rejection is passed on. *)
Definition then_ {A B} (p : Promise A) (f : A -> Promise B) : Promise B :=
  fun s => match p s with
           | (Fulfilled a, s') => f a s'
           | (Rejected e, s') => (Rejected e, s')
           end.

(** [p.catch(h)]: [h] runs on rejection, a fulfilment is passed on. *)
Definition catch_ {A} (p : Promise A) (h : jsval -> Promise A) : Promise A :=
  fun s => match p s with
           | (Fulfilled a, s') => (Fulfilled a, s')
           | (Rejected e, s') => h e s'
           end.

(** A statement of a callback body, before the promise it returns. *)
Definition stmt {A} (f : Closure * World -> Closure * World) (p : Promise A)
  : Promise A :=
  fun s => p (f s).

Notation "p '.then' f" := (then_ p f) (at level 50, left associativity).
Notation "p '.catch' h" := (catch_ p h) (at level 50, left associativity).

(** [language = lang] and [units.temperature = temp]. *)
Definition assign_language (lang : jsval) (s : Closure * World) : Closure * World :=
  (mkClosure (c_msg s.1) (c_ws s.1) lang (units s.1), s.2).

Definition assign_units_temperature (temp : jsval) (s : Closure * World)
  : Closure * World :=
  (mkClosure (c_msg s.1) (c_ws s.1) (language s.1)
     (set_prop "temperature" temp (units s.1)), s.2).

(** [msg.data.pluginId] as a value. *)
Definition id_value (p : PluginId) : jsval :=
  match p with
  | Some s => JStr s
  | None => JUndefined
  end.

Section PluginServer.

(** What the module imports: [Constants.MessageType] of the add-on
    library, [pkg.version], [UserProfile], and [Settings.getSetting], which
    is given by how the promise for each key settles. *)
Variable MessageType : MessageTypeT.
Variable pkg_version : string.
Variable UserProfile : UserProfileT.
Variable Settings_getSetting : string -> Settled jsval.

Definition getSetting (key : string) : Promise jsval :=
  fun s => (Settings_getSetting key, s).

(** The object literal of the register response. *)
Definition register_response (c : Closure) : jsval :=
  JObj [("messageType", JNum (PLUGIN_REGISTER_RESPONSE MessageType));
        ("data", JObj [
           ("pluginId", id_value (pluginId (data (c_msg c))));
           ("gatewayVersion", JStr pkg_version);
           ("userProfile", JObj [
              ("addonsDir", JStr (addonsDir UserProfile));
              ("baseDir", JStr (baseDir UserProfile));
              ("configDir", JStr (configDir UserProfile));
              ("dataDir", JStr (dataDir UserProfile));
              ("mediaDir", JStr (mediaDir UserProfile));
              ("logDir", JStr (logDir UserProfile));
              ("gatewayDir", JStr (gatewayDir UserProfile))]);
           ("preferences", JObj [
              ("language", language c);
              ("units", JObj (units c))])])].

(** [ws.send(JSON.stringify({...}))]. *)
Definition send_response : Promise unit :=
  fun s =>
    (Fulfilled tt,
     (s.1, exec_in (emit (EvWsSend (c_ws s.1)
                            (JSON_stringify (register_response s.1)))) s.2)).

(** The promise chain of the handshake. *)
Definition handshake : Promise unit :=
  getSetting "localization.language" .then (fun lang =>
    stmt (if truthy lang then assign_language lang else fun s => s)
      (getSetting "localization.units.temperature"))
  .then (fun temp =>
    stmt (if truthy temp then assign_units_temperature temp else fun s => s)
      (Promise_resolve tt))
  .catch (fun _ => Promise_resolve tt)
  .then (fun _ => send_response).

(** The closure that [onMsg] makes for a register request. *)
Definition new_closure (msg : Message) (ws : WebSocket) : Closure :=
  mkClosure msg ws (JStr "en-US") [("temperature", JStr "degree celsius")].

(** [onMsg(msg, ws)].  For a register request the chain is started and
    left with the runtime ([jobs]); it runs in a later turn ([settle]). *)
Definition onMsg (msg : Message) (ws : WebSocket) : Handler unit :=
  log_rcvd msg ;;
  if Z.eqb (messageType msg) (PLUGIN_REGISTER_REQUEST MessageType) then
    plugin <- registerPlugin (pluginId (data msg)) ;;
    update_plugin plugin (set_ws ws) ;;
    with_jobs (fun js => js ++ [new_closure msg ws])
  else if truthy_id (pluginId (data msg)) then
    plugin <- getPlugin (pluginId (data msg)) ;;
    match plugin with
    | Some r => emit (EvPluginOnMsg r msg)
    | None => ret tt
    end
  else ret tt.

(** A turn of the runtime: the [n]-th waiting chain has its lookups
    answered and runs to its end. *)
Definition settle (n : nat) : Handler unit :=
  fun w =>
    match jobs w !! n with
    | Some c => (tt, (handshake (c, exec_in (with_jobs (delete n)) w)).2.2)
    | None => (tt, w)
    end.

End PluginServer.

(** The entries the registry holds for an id. *)
Definition entries_for (p : PluginId) (w : World) : list (option string * nat) :=
  filter (fun kv => kv.1 = p) (map_to_list (plugins w)).

(** ** Reading a response *)

(** Member read along a path: [j.k1.k2...]. *)
Fixpoint path (ks : list string) (j : json) : option json :=
  match ks with
  | [] => Some j
  | k :: ks' =>
      match member k j with
      | Some j' => path ks' j'
      | None => None
      end
  end.

Definition is_rejected {A} (s : Settled A) : bool :=
  match s with
  | Rejected _ => true
  | Fulfilled _ => false
  end.

(** The closure variables as the chain of the handshake leaves them, read
    off the callbacks: the language is replaced by a truthy answer of the
    first lookup; the temperature unit by a truthy answer of the second,
    which is made only when the first was answered. *)
Definition settled_closure (settings : string -> Settled jsval) (c : Closure)
  : Closure :=
  match settings "localization.language" with
  | Fulfilled lang =>
      let c1 := if truthy lang
                then mkClosure (c_msg c) (c_ws c) lang (units c) else c in
      match settings "localization.units.temperature" with
      | Fulfilled temp =>
          if truthy temp
          then mkClosure (c_msg c1) (c_ws c1) (language c1)
                 (set_prop "temperature" temp (units c1))
          else c1
      | Rejected _ => c1
      end
  | Rejected _ => c
  end.

(** ** Registry invariant *)

(** Every registry entry is the location of a plugin object in the store. *)
Definition registry_ok (w : World) : bool :=
  bool_decide (map_Forall (fun _ r => (r < length (store w))%nat) (plugins w)).

(** One call on the server, or one turn of the runtime. *)
Inductive step (MT : MessageTypeT) (ver : string) (UP : UserProfileT)
    (settings : string -> Settled jsval) : World -> World -> Prop :=
| step_onMsg msg sock w :
    step MT ver UP settings w (exec_in (onMsg MT msg sock) w)
| step_settle n w :
    step MT ver UP settings w (exec_in (settle MT ver UP settings n) w)
| step_loadPlugin path manifest w :
    step MT ver UP settings w (exec_in (loadPlugin path manifest) w)
| step_registerPlugin p w :
    step MT ver UP settings w (exec_in (registerPlugin p) w)
| step_unregisterPlugin p w :
    step MT ver UP settings w (exec_in (unregisterPlugin p) w)
| step_addAdapter x w :
    step MT ver UP settings w (exec_in (addAdapter x) w)
| step_addNotifier x w :
    step MT ver UP settings w (exec_in (addNotifier x) w)
| step_addAPIHandler x w :
    step MT ver UP settings w (exec_in (addAPIHandler x) w)
| step_shutdown w :
    step MT ver UP settings w (exec_in shutdown w).

(** The worlds a server can be in: those that calls and turns lead to from
    a newly constructed server. *)
Definition reachable (MT : MessageTypeT) (ver : string) (UP : UserProfileT)
    (settings : string -> Settled jsval) (w : World) : Prop :=
  exists m v, rtc (step MT ver UP settings) (constructor m v) w.

(** ** Observations on a trace *)

(** The messages handed to plugins' handlers, in order. *)
Fixpoint deliveries (t : list Event) : list (nat * Message) :=
  match t with
  | [] => []
  | EvPluginOnMsg r m :: t' => (r, m) :: deliveries t'
  | _ :: t' => deliveries t'
  end.

(** The calls made on the add-on manager, in order. *)
Fixpoint manager_calls (t : list Event) : list Event :=
  match t with
  | [] => []
  | EvManagerAddAdapter m x :: t' => EvManagerAddAdapter m x :: manager_calls t'
  | EvManagerAddNotifier m x :: t' => EvManagerAddNotifier m x :: manager_calls t'
  | EvManagerAddAPIHandler m x :: t' => EvManagerAddAPIHandler m x :: manager_calls t'
  | _ :: t' => manager_calls t'
  end.

(** The messages sent on sockets, in order. *)
Fixpoint responses (t : list Event) : list (nat * option json) :=
  match t with
  | [] => []
  | EvWsSend sock text :: t' => (sock, text) :: responses t'
  | _ :: t' => responses t'
  end.

(** The plugins whose [start] was called, in order. *)
Fixpoint starts (t : list Event) : list nat :=
  match t with
  | [] => []
  | EvPluginStart r :: t' => r :: starts t'
  | _ :: t' => starts t'
  end.

(** ** Runs of the server *)

(** What can happen to a server: a call of one of its methods, or a turn
    of the runtime in which the [n]-th waiting handshake gets the answers
    of the settings store and runs. *)
Inductive Call : Type :=
| CallOnMsg (msg : Message) (sock : nat)
| CallSettle (answers : string -> Settled jsval) (n : nat)
| CallLoadPlugin (path : string) (manifest : Manifest)
| CallRegisterPlugin (p : option string)
| CallUnregisterPlugin (p : option string)
| CallAddAdapter (adapter : nat)
| CallAddNotifier (notifier : nat)
| CallAddAPIHandler (handler : nat)
| CallShutdown.

Definition call (MT : MessageTypeT) (ver : string) (UP : UserProfileT)
    (c : Call) (w : World) : World :=
  match c with
  | CallOnMsg msg sock => exec_in (onMsg MT msg sock) w
  | CallSettle answers n => exec_in (settle MT ver UP answers n) w
  | CallLoadPlugin path manifest => exec_in (loadPlugin path manifest) w
  | CallRegisterPlugin p => exec_in (registerPlugin p) w
  | CallUnregisterPlugin p => exec_in (unregisterPlugin p) w
  | CallAddAdapter x => exec_in (addAdapter x) w
  | CallAddNotifier x => exec_in (addNotifier x) w
  | CallAddAPIHandler x => exec_in (addAPIHandler x) w
  | CallShutdown => exec_in shutdown w
  end.

Definition run (MT : MessageTypeT) (ver : string) (UP : UserProfileT)
    (cs : list Call) (w : World) : World :=
  foldl (fun w' c => call MT ver UP c w') w cs.

(** The register requests among the calls of a run, with their sockets. *)
Fixpoint register_requests (MT : MessageTypeT) (cs : list Call)
  : list (Message * nat) :=
  match cs with
  | [] => []
  | CallOnMsg msg sock :: cs' =>
      if Z.eqb (messageType msg) (PLUGIN_REGISTER_REQUEST MT)
      then (msg, sock) :: register_requests MT cs'
      else register_requests MT cs'
  | _ :: cs' => register_requests MT cs'
  end.

(** The trace after the log line of [onMsg]. *)
Definition logged (msg : Message) (w : World) : list Event :=
  trace w ++ (if verbose w is Some true then [EvConsoleLog msg] else []).

(** Every registry entry is a plugin object made for the id it is
    registered under. *)
Definition created_for (w : World) : Prop :=
  forall k r, plugins w !! k = Some r ->
              exists pl, store w !! r = Some pl /\ plugin_id pl = k.

(** * Directories: the collection of directories

    The model class [Directories] keeps a [Map] from directory id to
    [Directory] object and the layout index of each directory, its place in
    the list the user sees.  As for plugins, the objects live in a store
    and the map holds their locations, in insertion order. *)

(** ** Numbers *)

(** The numbers that occur as layout indices: integers and [Infinity]
    (which [createDirectory] passes as the requested index).  A number with
    a fractional part and [NaN] are outside the model: what is proved of a
    requested index is proved for an integer or [Infinity]. *)
Inductive num : Type :=
| Fin (z : Z)
| Infinity.

Global Instance num_eq_dec : EqDecision num.
Proof. solve_decision. Defined.

(** [a < b] and [a <= b]. *)
Definition num_lt (a b : num) : bool :=
  match a, b with
  | Fin x, Fin y => Z.ltb x y
  | Fin _, Infinity => true
  | Infinity, _ => false
  end.

Definition num_le (a b : num) : bool :=
  match a, b with
  | Fin x, Fin y => Z.leb x y
  | _, Infinity => true
  | Infinity, Fin _ => false
  end.

(** [a + k] for an integer [k]. *)
Definition num_add (a : num) (k : Z) : num :=
  match a with
  | Fin x => Fin (x + k)
  | Infinity => Infinity
  end.

(** [Math.min(n - 1, Math.max(0, index))] for a length [n] and an index
    that is an integer or [Infinity]. *)
Definition clamp_index (n : nat) (index : num) : Z :=
  match index with
  | Fin z => Z.min (Z.of_nat n - 1) (Z.max 0 z)
  | Infinity => Z.of_nat n - 1
  end.

(** ** Directory objects *)

(** Modelled from the spec: the [Directory] class, which lives in
    [./directory].  The spec leaves it at "simple CRUD + linear reordering";
    a directory is taken as the record of what its accessors return, and
    [getId], [getHref], [getTitle], [getLayoutIndex] read and
    [setLayoutIndex] writes the field of that name, the write being done
    when the call returns (the promise it returns is about persisting). *)
Record Directory : Type := mkDirectory {
  dir_id : string;
  dir_href : string;
  dir_title : string;
  layoutIndex : num
}.

Definition setLayoutIndex (i : num) (d : Directory) : Directory :=
  mkDirectory (dir_id d) (dir_href d) (dir_title d) i.

(** ** An insertion-ordered [Map] with string keys *)

(** [m.get(k)]. *)
Fixpoint Map_get {A : Type} (k : string) (m : list (string * A)) : option A :=
  match m with
  | [] => None
  | (k', x) :: m' => if String.eqb k k' then Some x else Map_get k m'
  end.

(** [m.set(k, x)]: a key that is there keeps its place, a new one goes
    last. *)
Fixpoint Map_set {A : Type} (k : string) (x : A) (m : list (string * A))
  : list (string * A) :=
  match m with
  | [] => [(k, x)]
  | (k', y) :: m' =>
      if String.eqb k k' then (k, x) :: m' else (k', y) :: Map_set k x m'
  end.

(** [m.delete(k)]. *)
Fixpoint Map_delete {A : Type} (k : string) (m : list (string * A))
  : list (string * A) :=
  match m with
  | [] => []
  | (k', y) :: m' =>
      if String.eqb k k' then m' else (k', y) :: Map_delete k m'
  end.

(** [Array.from(m.values())]. *)
Definition Map_values {A : Type} (m : list (string * A)) : list A := m.*2.

(** ** The collection *)

(** What the collection emits and the calls it makes on its directories
    and on the database. *)
Inductive DirEvent : Type :=
| EmitLayoutModified
| EmitDirectoryAdded (directory : nat)
| EmitDirectoryRemoved (directory : nat)
| CallDirectoryRemove (directory : nat)
| CallDatabaseGetDirectories.

(** The field [getDirectoriesPromise]: unset or [null], or the promise of
    a database request, which is pending or has been rejected (the
    callback of a fulfilled one sets the field to [null]). *)
Inductive PromiseField : Type :=
| NoPromise
| PendingPromise
| RejectedPromise (e : jsval).

Record Dirs : Type := mkDirs {
  directories : list (string * nat);
  dir_store : list Directory;
  getDirectoriesPromise : PromiseField;
  dir_events : list DirEvent
}.

(** [new Directories()]. *)
Definition new_Directories : Dirs := mkDirs [] [] NoPromise [].

(** What a caller of [getDirectories] gets: the map at once, or a promise
    that is pending, or one that has been rejected. *)
Inductive Answer : Type :=
| AnswerMap (m : list (string * nat))
| AnswerPending
| AnswerRejected (e : jsval).

(** [getDirectories()], up to the database request. *)
Definition getDirectories (w : Dirs) : Answer * Dirs :=
  if (0 <? length (directories w))%nat then (AnswerMap (directories w), w)
  else match getDirectoriesPromise w with
       | PendingPromise => (AnswerPending, w)
       | RejectedPromise e => (AnswerRejected e, w)
       | NoPromise =>
           (AnswerPending,
            mkDirs (directories w) (dir_store w) PendingPromise
              (dir_events w ++ [CallDatabaseGetDirectories]))
       end.

(** The [forEach] of the callback of [getDirectories]: a new object for
    each row, entered under the id of the row. *)
Definition load_row (acc : list (string * nat) * list Directory) (row : Directory)
  : list (string * nat) * list Directory :=
  (Map_set (dir_id row) (length acc.2) acc.1, acc.2 ++ [row]).

(** The database request of [getDirectories] settles: on fulfilment the
    callback clears the field and builds the map anew from the rows (given
    as the objects [new Directory] makes of them); on rejection nothing
    runs, and the field keeps the rejected promise. *)
Definition getDirectories_settled (rows : Settled (list Directory)) (w : Dirs) : Dirs :=
  match getDirectoriesPromise w with
  | PendingPromise =>
      match rows with
      | Fulfilled ds =>
          let loaded := foldl load_row ([], dir_store w) ds in
          mkDirs loaded.1 loaded.2 NoPromise (dir_events w)
      | Rejected e =>
          mkDirs (directories w) (dir_store w) (RejectedPromise e) (dir_events w)
      end
  | _ => w
  end.

(** [clearState()]. *)
Definition clearState (w : Dirs) : Dirs :=
  mkDirs [] (dir_store w) (getDirectoriesPromise w) (dir_events w).

(** The body of the [map] callback of [setDirectoryLayoutIndex], for one
    directory [d]: the layout indices of [directory] and of [d] are read
    from the objects as they are at that moment. *)
Definition move_one (directory : nat) (index : Z) (st : list Directory) (d : nat)
  : list Directory :=
  match st !! directory, st !! d with
  | Some dir, Some x =>
      if num_lt (layoutIndex dir) (layoutIndex x) && num_le (layoutIndex x) (Fin index)
      then <[d := setLayoutIndex (num_add (layoutIndex x) (-1)) x]> st
      else if num_le (Fin index) (layoutIndex x) && num_lt (layoutIndex x) (layoutIndex dir)
           then <[d := setLayoutIndex (num_add (layoutIndex x) 1) x]> st
           else st
  | _, _ => st
  end.

(** [setDirectoryLayoutIndex(directory, index, emitModified)], with every
    [setLayoutIndex] succeeding. *)
Definition setDirectoryLayoutIndex (directory : nat) (index : num)
    (emitModified : bool) (w : Dirs) : Dirs :=
  let ds := Map_values (directories w) in
  let i := clamp_index (length ds) index in
  let st := foldl (move_one directory i) (dir_store w) ds in
  mkDirs (directories w) (alter (setLayoutIndex (Fin i)) directory st)
    (getDirectoriesPromise w)
    (dir_events w ++ (if emitModified then [EmitLayoutModified] else [])).

(** [createDirectory(id, description)].  [d] is the object that
    [new Directory(id, description)] makes and [created] is how
    [Database.createDirectory] settles; a rejection ends the method before
    it has touched the collection. *)
Definition createDirectory (d : Directory) (created : Settled jsval) (w : Dirs)
  : Settled jsval * Dirs :=
  match created with
  | Rejected e => (Rejected e, w)
  | Fulfilled directoryDesc =>
      let r := length (dir_store w) in
      let w1 := mkDirs (Map_set (dir_id d) r (directories w)) (dir_store w ++ [d])
                  (getDirectoriesPromise w) (dir_events w) in
      let w2 := setDirectoryLayoutIndex r Infinity true w1 in
      (Fulfilled directoryDesc,
       mkDirs (directories w2) (dir_store w2) (getDirectoriesPromise w2)
         (dir_events w2 ++ [EmitDirectoryAdded r]))
  end.

(** The body of the [forEach] callback of [removeDirectory]. *)
Definition close_gap (index : num) (st : list Directory) (d : nat) : list Directory :=
  match st !! d with
  | Some x =>
      if num_lt index (layoutIndex x)
      then <[d := setLayoutIndex (num_add (layoutIndex x) (-1)) x]> st
      else st
  | None => st
  end.

(** [removeDirectory(id)], [removed] being how [Database.removeDirectory]
    settles. *)
Definition removeDirectory (id : string) (removed : Settled unit) (w : Dirs)
  : Settled unit * Dirs :=
  match removed with
  | Rejected e => (Rejected e, w)
  | Fulfilled _ =>
      match Map_get id (directories w) with
      | None => (Fulfilled tt, w)
      | Some directory =>
          match dir_store w !! directory with
          | None => (Fulfilled tt, w)
          | Some dir =>
              let m := Map_delete id (directories w) in
              (Fulfilled tt,
               mkDirs m
                 (foldl (close_gap (layoutIndex dir)) (dir_store w) (Map_values m))
                 (getDirectoriesPromise w)
                 (dir_events w ++ [CallDirectoryRemove directory; EmitLayoutModified;
                                   EmitDirectoryRemoved directory]))
          end
      end
  end.

(** The callback of [getDirectory(id)] on the loaded map: the directory, or
    the error thrown.  It is how the promise of [getDirectory(id)] settles
    when the map is not empty, [getDirectories()] resolving with the map
    then; [getDirectory_call] is the method with its call of
    [getDirectories()]. *)
Definition getDirectory (id : string) (w : Dirs) : Settled nat :=
  match Map_get id (directories w) with
  | Some directory => Fulfilled directory
  | None => Rejected (JStr ("Unable to find directory with id = " +:+ id))
  end.

(** What a caller of [getDirectory] gets: a promise that has settled, or
    one that waits for the database request. *)
Inductive Lookup : Type :=
| LookupSettled (s : Settled nat)
| LookupPending.

(** [getDirectory(id)]: [this.getDirectories().then(callback)].  On the map
    the callback finds the directory or throws; a rejected promise of
    [getDirectories()] passes its rejection on; a pending one leaves the
    callback waiting for the database request. *)
Definition getDirectory_call (id : string) (w : Dirs) : Lookup * Dirs :=
  match getDirectories w with
  | (AnswerMap m, w') =>
      (LookupSettled
         match Map_get id m with
         | Some directory => Fulfilled directory
         | None => Rejected (JStr ("Unable to find directory with id = " +:+ id))
         end, w')
  | (AnswerPending, w') => (LookupPending, w')
  | (AnswerRejected e, w') => (LookupSettled (Rejected e), w')
  end.

(** The layout indices of the directories of the collection, in the order
    of the map. *)
Definition layout (w : Dirs) : list (option num) :=
  (fun r => layoutIndex <$> dir_store w !! r) <$> Map_values (directories w).

(** Is [x] one of the indices [0 .. n-1]? *)
Definition in_layout_range (n : nat) (x : option num) : bool :=
  match x with
  | Some (Fin z) => (0 <=? z)%Z && (z <? Z.of_nat n)%Z
  | _ => false
  end.

(** The map has each id once, and the layout indices of its [n]
    directories are among [0 .. n-1] and differ from one another: they are
    [0 .. n-1] in some order. *)
Definition layout_ok (w : Dirs) : bool :=
  bool_decide (NoDup (directories w).*1) &&
  bool_decide (NoDup (layout w)) &&
  forallb (in_layout_range (length (directories w))) (layout w).

(** Where a layout index [z] goes when the directory at index [a] is moved
    to index [i]. *)
Definition moved_index (a i z : Z) : Z :=
  if (z =? a)%Z then i
  else if (a <? z)%Z && (z <=? i)%Z then z - 1
  else if (i <=? z)%Z && (z <? a)%Z then z + 1
  else z.

(** The directory [x] after the callback of the move, [a] being the layout
    index of the directory that is moved. *)
Definition moved (a : num) (i : Z) (x : Directory) : Directory :=
  if num_lt a (layoutIndex x) && num_le (layoutIndex x) (Fin i)
  then setLayoutIndex (num_add (layoutIndex x) (-1)) x
  else if num_le (Fin i) (layoutIndex x) && num_lt (layoutIndex x) a
       then setLayoutIndex (num_add (layoutIndex x) 1) x
       else x.

(** ** Sample inputs *)

(** The message type numbers of the add-on IPC schema. *)
Definition sample_MessageType : MessageTypeT := mkMessageType 0 1.

Definition sample_UserProfile : UserProfileT :=
  mkUserProfile "/home/node/.webthings/addons" "/home/node/.webthings"
    "/home/node/.webthings/config" "/home/node/.webthings/data"
    "/home/node/.webthings/media" "/home/node/.webthings/log"
    "/home/node/webthings/gateway".

Definition register_request (q : string) : Message :=
  mkMessage 0 (mkData (Some q) []).

(** A device-property-changed notification of plugin [q]. *)
Definition property_changed (q : string) : Message :=
  mkMessage 8199 (mkData (Some q) [("adapterId", JStr "x1"); ("deviceId", JStr "d1")]).

(** A fresh server that has taken the register request of the plugin whose
    id is the empty string, on socket 3. *)
Definition world_with_empty_id : World :=
  exec_in (onMsg sample_MessageType (register_request "") 3) (constructor 0 None).

(** A fresh verbose server that has taken the register request of plugin
    ["abc"], on socket 3. *)
Definition world_with_abc : World :=
  exec_in (onMsg sample_MessageType (register_request "abc") 3)
    (constructor 0 (Some true)).

(** A settings store that cannot be read. *)
Definition failing_settings (key : string) : Settled jsval :=
  Rejected (JStr "SQLITE_BUSY: database is locked").

(** A settings store with an empty language and Fahrenheit. *)
Definition stored_settings (key : string) : Settled jsval :=
  if String.eqb key "localization.language" then Fulfilled (JStr "")
  else if String.eqb key "localization.units.temperature"
       then Fulfilled (JStr "degree fahrenheit")
       else Fulfilled JUndefined.

(** A settings store that answers the language and then fails. *)
Definition half_failing_settings (key : string) : Settled jsval :=
  if String.eqb key "localization.language" then Fulfilled (JStr "fr")
  else Rejected (JStr "SQLITE_BUSY: database is locked").

(** A settings store that has the unit but fails on the language. *)
Definition language_failing_settings (key : string) : Settled jsval :=
  if String.eqb key "localization.language"
  then Rejected (JStr "SQLITE_BUSY: database is locked")
  else Fulfilled (JStr "degree fahrenheit").

(** A settings store with French and Fahrenheit, and one more setting. *)
Definition french_settings (key : string) : Settled jsval :=
  if String.eqb key "localization.language" then Fulfilled (JStr "fr")
  else if String.eqb key "localization.units.temperature"
       then Fulfilled (JStr "degree fahrenheit")
       else Fulfilled (JNum 8080).

(** The same store after another setting changed. *)
Definition french_settings' (key : string) : Settled jsval :=
  if String.eqb key "localization.language" then Fulfilled (JStr "fr")
  else if String.eqb key "localization.units.temperature"
       then Fulfilled (JStr "degree fahrenheit")
       else Rejected JNull.

(** A register request that carries no plugin id. *)
Definition anonymous_register_request : Message := mkMessage 0 (mkData None []).

(** The directory [x] after the callback of the removal, [a] being the
    layout index of the directory that was removed. *)
Definition gap_closed (a : num) (x : Directory) : Directory :=
  if num_lt a (layoutIndex x)
  then setLayoutIndex (num_add (layoutIndex x) (-1)) x
  else x.

(** Where a layout index [z] goes when the directory at index [a] is
    removed. *)
Definition closed_index (a z : Z) : Z := if (a <? z)%Z then z - 1 else z.

(** Does the directory object at [r] have the href [href]:
    [directory.getHref() === href]. *)
Definition has_href (st : list Directory) (href : string) (r : nat) : bool :=
  match st !! r with
  | Some x => String.eqb (dir_href x) href
  | None => false
  end.

(** The callback of [getListDirectories(hrefs)] on the loaded map: for each
    href in turn, the directories of the map that have it, in map order. *)
Definition getListDirectories (hrefs : list string) (w : Dirs) : list nat :=
  flat_map (fun href =>
              List.filter (has_href (dir_store w) href)
                (Map_values (directories w)))
    hrefs.

(** Three directories, made one after the other in a new collection. *)
Definition sample_directory (id title : string) : Directory :=
  mkDirectory id ("/directories/" +:+ id) title Infinity.

Definition sample_dirs : Dirs :=
  (createDirectory (sample_directory "attic" "Attic") (Fulfilled JNull)
     (createDirectory (sample_directory "garage" "Garage") (Fulfilled JNull)
        (createDirectory (sample_directory "kitchen" "Kitchen") (Fulfilled JNull)
           new_Directories).2).2).2.

(** * Properties *)

Lemma registerPlugin_known p r w :
  plugins w !! p = Some r -> registerPlugin p w = (r, w).
Proof. intros H. unfold registerPlugin, bind, gets. now rewrite H. Qed.

Lemma registerPlugin_fresh p w :
  plugins w !! p = None ->
  registerPlugin p w =
    (length (store w),
     mkWorld (manager w) (verbose w) (<[p := length (store w)]> (plugins w))
       (store w ++ [mkPlugin p (verbose w) None None None]) (jobs w) (trace w)).
Proof. intros H. unfold registerPlugin, bind, gets. now rewrite H. Qed.

Lemma registerPlugin_registers p w :
  plugins (registerPlugin p w).2 !! p = Some (registerPlugin p w).1.
Proof.
  destruct (plugins w !! p) as [r|] eqn:E.
  - now rewrite (registerPlugin_known _ _ _ E).
  - rewrite (registerPlugin_fresh _ _ E). simpl. apply lookup_insert_eq.
Qed.

Lemma filter_key_absent {V} (p : option string) (l : list (option string * V)) :
  p ∉ l.*1 -> filter (fun kv => kv.1 = p) l = [].
Proof.
  induction l as [|[k x] l IH]; [done|].
  rewrite fmap_cons. intros [Hk Hl]%not_elem_of_cons. simpl in Hk.
  rewrite filter_cons_False; [by apply IH | simpl; congruence].
Qed.

Lemma filter_key_unique {V} (p : option string) (v : V) (l : list (option string * V)) :
  NoDup l.*1 -> (p, v) ∈ l -> filter (fun kv => kv.1 = p) l = [(p, v)].
Proof.
  induction l as [|[k x] l IH]; intros Hnd Hin; [by apply elem_of_nil in Hin|].
  rewrite fmap_cons in Hnd. apply NoDup_cons in Hnd as [Hk Hnd]. simpl in Hk.
  apply elem_of_cons in Hin as [Heq|Hin].
  - inversion Heq; subst. rewrite filter_cons_True by done.
    by rewrite filter_key_absent.
  - rewrite filter_cons_False; [by apply IH|].
    simpl. intros ->. apply Hk. apply list_elem_of_fmap. by exists (p, v).
Qed.

Lemma entries_for_lookup p r w :
  plugins w !! p = Some r -> entries_for p w = [(p, r)].
Proof.
  intros H. unfold entries_for. apply filter_key_unique.
  - apply NoDup_fst_map_to_list.
  - by apply elem_of_map_to_list.
Qed.

(** C1. Registering the same id twice in sequence returns the same Plugin
    instance both times: the second call finds the entry the first one left,
    builds no new object and leaves the world as it was; afterwards the
    registry holds exactly one entry for the id. *)
Theorem registerPlugin_idempotent (p : option string) (w : World) :
  let (r1, w1) := registerPlugin p w in
  let (r2, w2) := registerPlugin p w1 in
  r1 = r2 /\ w2 = w1 /\
  plugins w2 !! p = Some r1 /\
  entries_for p w2 = [(p, r1)] /\
  length (store w2) = length (store w1).
Proof.
  pose proof (registerPlugin_registers p w) as H.
  destruct (registerPlugin p w) as [r1 w1]. simpl in H.
  rewrite (registerPlugin_known _ _ _ H).
  repeat split; auto using entries_for_lookup.
Qed.

(** ** Dispatch *)

Lemma deliveries_app t1 t2 : deliveries (t1 ++ t2) = deliveries t1 ++ deliveries t2.
Proof.
  induction t1 as [|e t1 IH]; [done|].
  destruct e; simpl; rewrite ?IH; done.
Qed.

Lemma log_rcvd_frame msg w :
  let w' := exec_in (log_rcvd msg) w in
  manager w' = manager w /\ verbose w' = verbose w /\ plugins w' = plugins w /\
  store w' = store w /\ jobs w' = jobs w /\
  trace w' = trace w ++ (if verbose w is Some true then [EvConsoleLog msg] else []).
Proof.
  unfold exec_in, log_rcvd, bind, gets. simpl.
  destruct w as [m v ps st js t]. simpl.
  destruct v as [[|]|]; simpl; rewrite ?app_nil_r; repeat split.
Qed.

Lemma log_rcvd_deliveries msg w :
  deliveries (trace (exec_in (log_rcvd msg) w)) = deliveries (trace w).
Proof.
  destruct (log_rcvd_frame msg w) as (_ & _ & _ & _ & _ & ->).
  rewrite deliveries_app. destruct (verbose w) as [[|]|]; simpl; by rewrite app_nil_r.
Qed.

(** [onMsg] opens with the log line: name the world after it and record
    what it kept. *)
Ltac after_log msg w w0 :=
  let Hfr := fresh "Hframe" in
  pose proof (log_rcvd_frame msg w) as Hfr;
  pose proof (log_rcvd_deliveries msg w);
  unfold exec_in, bind in *;
  destruct (log_rcvd msg w) as [[] w0]; simpl in *;
  destruct Hfr as (_ & _ & ? & ? & ? & ?).

Section Dispatch.

Variable MessageType : MessageTypeT.

(** What [onMsg] does with a message that is not a register request and
    has a truthy plugin id found in the registry. *)
Lemma onMsg_forward msg ws w r :
  messageType msg <> PLUGIN_REGISTER_REQUEST MessageType ->
  truthy_id (pluginId (data msg)) = true ->
  plugins w !! pluginId (data msg) = Some r ->
  onMsg MessageType msg ws w = (log_rcvd msg ;; emit (EvPluginOnMsg r msg)) w.
Proof.
  intros Hty Hid Hreg. unfold onMsg. after_log msg w w1.
  apply Z.eqb_neq in Hty. rewrite Hty, Hid. unfold getPlugin, gets.
  by replace (plugins w1) with (plugins w); rewrite Hreg.
Qed.

(** What [onMsg] does with a message that is not a register request and
    whose plugin id is falsy or not in the registry: only the log line. *)
Lemma onMsg_drop msg ws w :
  messageType msg <> PLUGIN_REGISTER_REQUEST MessageType ->
  truthy_id (pluginId (data msg)) = false \/
    plugins w !! pluginId (data msg) = None ->
  onMsg MessageType msg ws w = log_rcvd msg w.
Proof.
  intros Hty Hid. unfold onMsg. after_log msg w w1.
  apply Z.eqb_neq in Hty. rewrite Hty.
  destruct (truthy_id (pluginId (data msg))) eqn:Et; [|done].
  destruct Hid as [?|Hnone]; [done|].
  unfold getPlugin, gets.
  by replace (plugins w1) with (plugins w); rewrite Hnone.
Qed.

End Dispatch.

(** C2, as stated: every envelope that is not a register request and whose
    plugin id is in the registry reaches the handler of the plugin
    registered under that id.  The plugin registered under the empty string
    does not get its envelopes: the dispatch tests the id for truthiness
    before it looks it up. *)
Lemma onMsg_routing_counterexample :
  ~ (forall (MT : MessageTypeT) (msg : Message) (ws : nat) (w : World)
            (p : string) (r : nat),
        messageType msg <> PLUGIN_REGISTER_REQUEST MT ->
        pluginId (data msg) = Some p ->
        plugins w !! Some p = Some r ->
        deliveries (trace (exec_in (onMsg MT msg ws) w)) =
          deliveries (trace w) ++ [(r, msg)]).
Proof.
  intros H.
  specialize (H sample_MessageType (property_changed "") 3%nat
                world_with_empty_id "" 0%nat).
  vm_compute in H. specialize (H ltac:(discriminate) eq_refl eq_refl).
  discriminate H.
Qed.

(** C2, amended: an envelope that is not a register request and whose
    plugin id is a non-empty string found in the registry is handed to the
    handler of the plugin registered under that id, once, and to no other
    handler; the dispatch itself changes neither registry nor plugins. *)
Theorem onMsg_routes_to_registered (MT : MessageTypeT) (msg : Message)
    (ws : nat) (w : World) (p : string) (r : nat) :
  messageType msg <> PLUGIN_REGISTER_REQUEST MT ->
  pluginId (data msg) = Some p ->
  p <> "" ->
  plugins w !! Some p = Some r ->
  deliveries (trace (exec_in (onMsg MT msg ws) w)) =
    deliveries (trace w) ++ [(r, msg)] /\
  plugins (exec_in (onMsg MT msg ws) w) = plugins w /\
  store (exec_in (onMsg MT msg ws) w) = store w /\
  jobs (exec_in (onMsg MT msg ws) w) = jobs w.
Proof.
  intros Hty Hid Hp Hreg. unfold exec_in.
  rewrite (onMsg_forward MT msg ws w r); try done.
  - after_log msg w w1. rewrite deliveries_app. simpl.
    repeat split; congruence.
  - rewrite Hid. simpl. apply String.eqb_neq in Hp. by rewrite Hp.
  - by rewrite Hid.
Qed.

Lemma onMsg_routes_to_registered_witness :
  messageType (property_changed "abc") <> PLUGIN_REGISTER_REQUEST sample_MessageType /\
  plugins world_with_abc !! Some "abc" = Some 0%nat /\
  deliveries (trace (exec_in (onMsg sample_MessageType (property_changed "abc") 3)
                       world_with_abc)) =
    deliveries (trace world_with_abc) ++ [(0%nat, property_changed "abc")].
Proof.
  split; [discriminate|]. split; [reflexivity|].
  apply (onMsg_routes_to_registered sample_MessageType (property_changed "abc") 3
           world_with_abc "abc" 0%nat);
    [discriminate | reflexivity | discriminate | reflexivity].
Defined.

(** C3. An envelope that is not a register request and whose plugin id is
    absent, or not in the registry, is dropped: [onMsg] returns normally
    having done nothing but its verbose log line; registry, plugin objects
    and waiting handshakes are as before and no handler is called. *)
Theorem onMsg_unknown_dropped (MT : MessageTypeT) (msg : Message) (ws : nat)
    (w : World) :
  messageType msg <> PLUGIN_REGISTER_REQUEST MT ->
  pluginId (data msg) = None \/ plugins w !! pluginId (data msg) = None ->
  onMsg MT msg ws w = log_rcvd msg w /\
  plugins (exec_in (onMsg MT msg ws) w) = plugins w /\
  store (exec_in (onMsg MT msg ws) w) = store w /\
  jobs (exec_in (onMsg MT msg ws) w) = jobs w /\
  trace (exec_in (onMsg MT msg ws) w) =
    trace w ++ (if verbose w is Some true then [EvConsoleLog msg] else []).
Proof.
  intros Hty Hid.
  assert (onMsg MT msg ws w = log_rcvd msg w) as Heq.
  { apply onMsg_drop; [done|]. destruct Hid as [->|?]; auto. }
  unfold exec_in. rewrite Heq.
  pose proof (log_rcvd_frame msg w) as (_ & _ & ? & ? & ? & ?). done.
Qed.

Lemma onMsg_unknown_dropped_witness :
  messageType (property_changed "xyz") <> PLUGIN_REGISTER_REQUEST sample_MessageType /\
  plugins world_with_abc !! Some "xyz" = None /\
  onMsg sample_MessageType (property_changed "xyz") 3 world_with_abc =
    log_rcvd (property_changed "xyz") world_with_abc /\
  store (exec_in (onMsg sample_MessageType (property_changed "xyz") 3) world_with_abc) =
    store world_with_abc.
Proof.
  split; [discriminate|]. split; [reflexivity|].
  destruct (onMsg_unknown_dropped sample_MessageType (property_changed "xyz") 3
              world_with_abc) as (H1 & _ & H3 & _);
    [discriminate | right; reflexivity |].
  split; assumption.
Defined.

(** C5. [unregisterPlugin(p)] takes [p] out of the registry and leaves every
    other entry, the plugin objects and the trace as they were (so it calls
    nothing on the add-on manager); an envelope for [p] that is not a
    register request is dropped afterwards. *)
Theorem unregisterPlugin_cleans_up (MT : MessageTypeT) (p : option string)
    (w : World) (msg : Message) (ws : nat) :
  messageType msg <> PLUGIN_REGISTER_REQUEST MT ->
  pluginId (data msg) = p ->
  let w1 := exec_in (unregisterPlugin p) w in
  let w2 := exec_in (onMsg MT msg ws) w1 in
  plugins w1 !! p = None /\
  (forall k, k <> p -> plugins w1 !! k = plugins w !! k) /\
  store w1 = store w /\ jobs w1 = jobs w /\ trace w1 = trace w /\
  manager_calls (trace w1) = manager_calls (trace w) /\
  onMsg MT msg ws w1 = log_rcvd msg w1 /\
  plugins w2 = plugins w1 /\ store w2 = store w1 /\
  deliveries (trace w2) = deliveries (trace w1).
Proof.
  intros Hty Hid w1 w2.
  assert (plugins w1 !! p = None) as Hgone by apply lookup_delete_eq.
  assert (onMsg MT msg ws w1 = log_rcvd msg w1) as Heq.
  { apply onMsg_drop; [done|]. right. by rewrite Hid. }
  repeat split; try done.
  - intros k Hk. subst w1. simpl. by apply lookup_delete_ne.
  - subst w2. unfold exec_in at 1. rewrite Heq. apply log_rcvd_frame.
  - subst w2. unfold exec_in at 1. rewrite Heq. apply log_rcvd_frame.
  - subst w2. unfold exec_in at 1. rewrite Heq. apply log_rcvd_deliveries.
Qed.

Lemma unregisterPlugin_cleans_up_witness :
  messageType (property_changed "abc") <> PLUGIN_REGISTER_REQUEST sample_MessageType /\
  plugins world_with_abc !! Some "abc" = Some 0%nat /\
  plugins (exec_in (unregisterPlugin (Some "abc")) world_with_abc) !! Some "abc" = None /\
  deliveries (trace (exec_in (onMsg sample_MessageType (property_changed "abc") 3)
                       (exec_in (unregisterPlugin (Some "abc")) world_with_abc))) =
    deliveries (trace (exec_in (unregisterPlugin (Some "abc")) world_with_abc)).
Proof.
  split; [discriminate|]. split; [reflexivity|].
  destruct (unregisterPlugin_cleans_up sample_MessageType (Some "abc") world_with_abc
              (property_changed "abc") 3)
    as (H1 & _ & _ & _ & _ & _ & _ & _ & _ & H10);
    [discriminate | reflexivity |].
  split; assumption.
Defined.

(** C7. Each of [addAdapter], [addNotifier] and [addAPIHandler] calls the
    add-on manager's method of the same name once, with the proxy it was
    given, and does nothing else: registry, plugin objects, waiting
    handshakes and the server's own fields are unchanged. *)
Theorem add_proxy_forwards_only (proxy : nat) (w : World) :
  addAdapter proxy w =
    (tt, mkWorld (manager w) (verbose w) (plugins w) (store w) (jobs w)
           (trace w ++ [EvManagerAddAdapter (manager w) proxy])) /\
  addNotifier proxy w =
    (tt, mkWorld (manager w) (verbose w) (plugins w) (store w) (jobs w)
           (trace w ++ [EvManagerAddNotifier (manager w) proxy])) /\
  addAPIHandler proxy w =
    (tt, mkWorld (manager w) (verbose w) (plugins w) (store w) (jobs w)
           (trace w ++ [EvManagerAddAPIHandler (manager w) proxy])).
Proof. repeat split. Qed.

(** ** The registry points into the store *)

Lemma registry_ok_lookup w k r :
  registry_ok w = true -> plugins w !! k = Some r -> (r < length (store w))%nat.
Proof.
  unfold registry_ok. rewrite bool_decide_eq_true. intros H Hk. exact (H k r Hk).
Qed.

Lemma registry_ok_intro w :
  (forall k r, plugins w !! k = Some r -> (r < length (store w))%nat) ->
  registry_ok w = true.
Proof. intros H. unfold registry_ok. rewrite bool_decide_eq_true. exact H. Qed.

Lemma registry_ok_constructor m v : registry_ok (constructor m v) = true.
Proof. apply registry_ok_intro. intros k r. simpl. by rewrite lookup_empty. Qed.

(** [registerPlugin] in full: the location it returns is in the registry
    and in the store; what was in the store stays as it was. *)
Lemma registerPlugin_spec p w :
  registry_ok w = true ->
  registry_ok (registerPlugin p w).2 = true /\
  plugins (registerPlugin p w).2 !! p = Some (registerPlugin p w).1 /\
  ((registerPlugin p w).1 < length (store (registerPlugin p w).2))%nat /\
  (forall r, (r < length (store w))%nat ->
             store (registerPlugin p w).2 !! r = store w !! r) /\
  (forall k, k <> p -> plugins (registerPlugin p w).2 !! k = plugins w !! k) /\
  trace (registerPlugin p w).2 = trace w /\
  jobs (registerPlugin p w).2 = jobs w /\
  manager (registerPlugin p w).2 = manager w /\
  verbose (registerPlugin p w).2 = verbose w.
Proof.
  intros Hok. destruct (plugins w !! p) as [r|] eqn:E.
  - rewrite (registerPlugin_known _ _ _ E). simpl.
    repeat split; eauto using registry_ok_lookup.
  - rewrite (registerPlugin_fresh _ _ E). simpl. rewrite length_app. simpl.
    repeat split; try done.
    + apply registry_ok_intro. simpl. intros k r. rewrite length_app. simpl.
      rewrite lookup_insert. case_decide.
      * intros [= <-]. lia.
      * intros Hk. pose proof (registry_ok_lookup _ _ _ Hok Hk). lia.
    + apply lookup_insert_eq.
    + lia.
    + intros r Hr. by apply lookup_app_l.
    + intros k Hk. by apply lookup_insert_ne.
Qed.

Lemma update_plugin_spec r f w :
  update_plugin r f w =
    (tt, mkWorld (manager w) (verbose w) (plugins w) (alter f r (store w))
           (jobs w) (trace w)).
Proof. reflexivity. Qed.

Lemma registry_ok_alter r f w js t :
  registry_ok w = true ->
  registry_ok (mkWorld (manager w) (verbose w) (plugins w) (alter f r (store w)) js t)
  = true.
Proof.
  intros Hok. apply registry_ok_intro. simpl. intros k r' Hk.
  rewrite length_alter. eauto using registry_ok_lookup.
Qed.

Lemma registry_ok_ext w w' :
  plugins w' = plugins w -> length (store w') = length (store w) ->
  registry_ok w = true -> registry_ok w' = true.
Proof.
  intros Hp Hs Hok. apply registry_ok_intro. intros k r. rewrite Hp, Hs.
  eauto using registry_ok_lookup.
Qed.

Lemma registry_ok_log msg w :
  registry_ok w = true -> registry_ok (exec_in (log_rcvd msg) w) = true.
Proof.
  pose proof (log_rcvd_frame msg w) as (_ & _ & Hp & Hs & _).
  apply registry_ok_ext; [done | by rewrite Hs].
Qed.

Lemma registry_ok_onMsg MT msg sock w :
  registry_ok w = true -> registry_ok (exec_in (onMsg MT msg sock) w) = true.
Proof.
  intros Hok. apply (registry_ok_log msg) in Hok.
  unfold onMsg. after_log msg w w0.
  destruct (messageType msg =? PLUGIN_REGISTER_REQUEST MT)%Z.
  - pose proof (registerPlugin_spec (pluginId (data msg)) w0 Hok) as (Hok1 & _).
    destruct (registerPlugin (pluginId (data msg)) w0) as [r w1]. simpl in *.
    by apply registry_ok_alter.
  - destruct (truthy_id (pluginId (data msg))); [|done].
    unfold getPlugin, gets. destruct (plugins w0 !! pluginId (data msg)); [|done].
    revert Hok. by apply registry_ok_ext.
Qed.

Lemma registry_ok_loadPlugin path manifest w :
  registry_ok w = true -> registry_ok (exec_in (loadPlugin path manifest) w) = true.
Proof.
  intros Hok. unfold exec_in, loadPlugin, bind.
  pose proof (registerPlugin_spec (Some (name manifest)) w Hok) as (Hok1 & _).
  destruct (registerPlugin (Some (name manifest)) w) as [r w1]. simpl in *.
  revert Hok1. apply registry_ok_ext; simpl; [done|]. by rewrite !length_alter.
Qed.

Lemma registry_ok_unregisterPlugin p w :
  registry_ok w = true -> registry_ok (exec_in (unregisterPlugin p) w) = true.
Proof.
  intros Hok. apply registry_ok_intro. simpl. intros k r Hk.
  apply lookup_delete_Some in Hk as [_ Hk]. eauto using registry_ok_lookup.
Qed.



Lemma registerPlugin_frame p w :
  trace (registerPlugin p w).2 = trace w /\ jobs (registerPlugin p w).2 = jobs w /\
  manager (registerPlugin p w).2 = manager w /\
  verbose (registerPlugin p w).2 = verbose w.
Proof.
  destruct (plugins w !! p) as [r|] eqn:E.
  - by rewrite (registerPlugin_known _ _ _ E).
  - by rewrite (registerPlugin_fresh _ _ E).
Qed.

(** What a register request leaves behind, before its handshake settles. *)
Lemma onMsg_register (MT : MessageTypeT) (msg : Message) (sock : nat) (w : World) :
  messageType msg = PLUGIN_REGISTER_REQUEST MT ->
  onMsg MT msg sock w =
    (log_rcvd msg ;;
     plugin <- registerPlugin (pluginId (data msg)) ;;
     update_plugin plugin (set_ws sock) ;;
     with_jobs (fun js => js ++ [new_closure msg sock])) w.
Proof.
  intros Hty. unfold onMsg, bind. destruct (log_rcvd msg w) as [[] w0].
  apply Z.eqb_eq in Hty. by rewrite Hty.
Qed.

(** A register request leaves its promise chain waiting, last in line. *)
Lemma onMsg_register_jobs (MT : MessageTypeT) (msg : Message) (sock : nat) (w : World) :
  messageType msg = PLUGIN_REGISTER_REQUEST MT ->
  jobs (exec_in (onMsg MT msg sock) w) = jobs w ++ [new_closure msg sock] /\
  trace (exec_in (onMsg MT msg sock) w) = trace (exec_in (log_rcvd msg) w).
Proof.
  intros Hty. unfold exec_in. rewrite (onMsg_register MT msg sock w Hty).
  after_log msg w w0.
  pose proof (registerPlugin_frame (pluginId (data msg)) w0) as (Ht & Hj & _).
  destruct (registerPlugin (pluginId (data msg)) w0) as [r w1]. simpl in *.
  split; congruence.
Qed.

(** C9. A register request for an id that is in the registry keeps the
    plugin object registered under it (no object is made, the registry is
    unchanged) and writes the socket the request came on to that object's
    [ws], whatever it held before; the other fields of the object and the
    other objects are untouched. *)
Theorem onMsg_reregister_rebinds (MT : MessageTypeT) (msg : Message)
    (sock : nat) (w : World) (r : nat) (pl : Plugin) :
  messageType msg = PLUGIN_REGISTER_REQUEST MT ->
  plugins w !! pluginId (data msg) = Some r ->
  store w !! r = Some pl ->
  let w' := exec_in (onMsg MT msg sock) w in
  plugins w' = plugins w /\
  length (store w') = length (store w) /\
  (exists pl', store w' !! r = Some pl' /\ ws pl' = Some sock /\
               plugin_id pl' = plugin_id pl /\
               plugin_verbose pl' = plugin_verbose pl /\
               exec pl' = exec pl /\ execPath pl' = execPath pl) /\
  (forall r', r' <> r -> store w' !! r' = store w !! r') /\
  jobs w' = jobs w ++ [new_closure msg sock] /\
  deliveries (trace w') = deliveries (trace w).
Proof.
  intros Hty Hreg Hpl w'. subst w'. unfold exec_in.
  rewrite (onMsg_register MT msg sock w Hty). after_log msg w w0.
  rewrite (registerPlugin_known (pluginId (data msg)) r w0) by congruence.
  simpl. rewrite length_alter.
  replace (store w0) with (store w). repeat split; try congruence.
  - exists (set_ws sock pl). by rewrite list_lookup_alter_eq, Hpl.
  - intros r' Hne. by rewrite list_lookup_alter_ne.
Qed.

(** The same plugin, first bound to socket 3, is bound to socket 9 by its
    second register request. *)
Lemma onMsg_reregister_rebinds_witness :
  store world_with_abc !! 0%nat = Some (mkPlugin (Some "abc") (Some true) None None (Some 3%nat)) /\
  exists pl', store (exec_in (onMsg sample_MessageType (register_request "abc") 9)
                       world_with_abc) !! 0%nat = Some pl' /\
              ws pl' = Some 9%nat.
Proof.
  split; [reflexivity|].
  destruct (onMsg_reregister_rebinds sample_MessageType (register_request "abc") 9
              world_with_abc 0%nat
              (mkPlugin (Some "abc") (Some true) None None (Some 3%nat))
              eq_refl eq_refl eq_refl)
    as (_ & _ & (pl' & H1 & H2 & _) & _).
  exists pl'. split; assumption.
Defined.

(** ** The handshake *)

Section Handshake.

Variable MessageType : MessageTypeT.
Variable pkg_version : string.
Variable UserProfile : UserProfileT.
Variable Settings_getSetting : string -> Settled jsval.

(** The chain always ends in the send: the rejection of a lookup is caught
    before it. *)
Lemma handshake_run (c : Closure) (w : World) :
  handshake MessageType pkg_version UserProfile Settings_getSetting (c, w) =
    (Fulfilled tt,
     (settled_closure Settings_getSetting c,
      exec_in (emit (EvWsSend (c_ws c)
                       (JSON_stringify
                          (register_response MessageType pkg_version UserProfile
                             (settled_closure Settings_getSetting c))))) w)).
Proof.
  unfold handshake, then_, catch_, stmt, getSetting, send_response,
    Promise_resolve, settled_closure.
  destruct (Settings_getSetting "localization.language") as [lang|e1]; [|done].
  destruct (truthy lang);
    (destruct (Settings_getSetting "localization.units.temperature") as [temp|e2];
     [destruct (truthy temp)|]); done.
Qed.

Lemma settle_run (n : nat) (c : Closure) (w : World) :
  jobs w !! n = Some c ->
  settle MessageType pkg_version UserProfile Settings_getSetting n w =
    (tt, mkWorld (manager w) (verbose w) (plugins w) (store w) (delete n (jobs w))
           (trace w ++ [EvWsSend (c_ws c)
                          (JSON_stringify
                             (register_response MessageType pkg_version UserProfile
                                (settled_closure Settings_getSetting c)))])).
Proof.
  intros Hn. unfold settle. rewrite Hn. by rewrite handshake_run.
Qed.

Lemma truthy_stringify (v : jsval) :
  truthy v = true -> exists j, JSON_stringify v = Some j.
Proof. destruct v; simpl; intros H; try discriminate; eauto. Qed.

(** The preference values of a settled handshake are never [undefined]. *)
Lemma settled_preferences (msg : Message) (sock : nat) :
  exists (lang temp : jsval) (l t : json),
    settled_closure Settings_getSetting (new_closure msg sock) =
      mkClosure msg sock lang [("temperature", temp)] /\
    JSON_stringify lang = Some l /\ JSON_stringify temp = Some t /\
    (lang = JStr "en-US" \/
     Settings_getSetting "localization.language" = Fulfilled lang /\
     truthy lang = true) /\
    (temp = JStr "degree celsius" \/
     Settings_getSetting "localization.units.temperature" = Fulfilled temp /\
     truthy temp = true /\
     is_rejected (Settings_getSetting "localization.language") = false).
Proof.
  unfold settled_closure, new_closure.
  destruct (Settings_getSetting "localization.language") as [lang|e1] eqn:E1.
  - destruct (truthy lang) eqn:T1;
      (destruct (Settings_getSetting "localization.units.temperature")
         as [temp|e2] eqn:E2; [destruct (truthy temp) eqn:T2|]); simpl;
      try destruct (truthy_stringify _ T1) as [l Hl];
      try destruct (truthy_stringify _ T2) as [t Ht];
      do 4 eexists; (split; [reflexivity|]); eauto 10.
  - do 4 eexists. split; [reflexivity|]. simpl. eauto 10.
Qed.

(** The register response, as a JSON document, for preferences [l], [t]. *)
Lemma register_response_json (c : Closure) (q : string) (lang temp : jsval)
    (l t : json) :
  pluginId (data (c_msg c)) = Some q ->
  language c = lang -> units c = [("temperature", temp)] ->
  JSON_stringify lang = Some l -> JSON_stringify temp = Some t ->
  JSON_stringify (register_response MessageType pkg_version UserProfile c) =
    Some (JsObj [
      ("messageType", JsNum (PLUGIN_REGISTER_RESPONSE MessageType));
      ("data", JsObj [
         ("pluginId", JsStr q);
         ("gatewayVersion", JsStr pkg_version);
         ("userProfile", JsObj [
            ("addonsDir", JsStr (addonsDir UserProfile));
            ("baseDir", JsStr (baseDir UserProfile));
            ("configDir", JsStr (configDir UserProfile));
            ("dataDir", JsStr (dataDir UserProfile));
            ("mediaDir", JsStr (mediaDir UserProfile));
            ("logDir", JsStr (logDir UserProfile));
            ("gatewayDir", JsStr (gatewayDir UserProfile))]);
         ("preferences", JsObj [
            ("language", l);
            ("units", JsObj [("temperature", t)])])])]).
Proof.
  intros Hq Hl Hu Hsl Hst. unfold register_response.
  rewrite Hq, Hl, Hu. simpl. by rewrite Hsl, Hst.
Qed.

(** The preferences of the register response, with or without a plugin id
    in the request. *)
Lemma register_response_preferences (c : Closure) (lang temp : jsval) (l t : json) :
  language c = lang -> units c = [("temperature", temp)] ->
  JSON_stringify lang = Some l -> JSON_stringify temp = Some t ->
  exists j,
    JSON_stringify (register_response MessageType pkg_version UserProfile c) = Some j /\
    path ["messageType"] j = Some (JsNum (PLUGIN_REGISTER_RESPONSE MessageType)) /\
    path ["data"; "preferences"; "language"] j = Some l /\
    path ["data"; "preferences"; "units"; "temperature"] j = Some t.
Proof.
  intros Hl Hu Hsl Hst. unfold register_response. rewrite Hl, Hu. simpl.
  rewrite Hsl, Hst. eexists. split; [reflexivity|].
  destruct (pluginId (data (c_msg c))); done.
Qed.


(** C6. The register response to a request of plugin [q] is one message on
    the socket of the request: its type is the register-response type, and
    its data are the plugin id [q], the gateway version, the user profile
    with its seven directories and no other member, and the preferences
    with the language and the temperature unit. *)
Theorem register_response_payload (msg : Message) (sock : nat) (q : string)
    (w w2 : World) (n : nat) :
  messageType msg = PLUGIN_REGISTER_REQUEST MessageType ->
  pluginId (data msg) = Some q ->
  jobs w2 !! n = Some (new_closure msg sock) ->
  jobs (exec_in (onMsg MessageType msg sock) w) = jobs w ++ [new_closure msg sock] /\
  exists l t : json,
    settle MessageType pkg_version UserProfile Settings_getSetting n w2 =
      (tt, mkWorld (manager w2) (verbose w2) (plugins w2) (store w2)
             (delete n (jobs w2))
             (trace w2 ++ [EvWsSend sock (Some (JsObj [
                ("messageType", JsNum (PLUGIN_REGISTER_RESPONSE MessageType));
                ("data", JsObj [
                   ("pluginId", JsStr q);
                   ("gatewayVersion", JsStr pkg_version);
                   ("userProfile", JsObj [
                      ("addonsDir", JsStr (addonsDir UserProfile));
                      ("baseDir", JsStr (baseDir UserProfile));
                      ("configDir", JsStr (configDir UserProfile));
                      ("dataDir", JsStr (dataDir UserProfile));
                      ("mediaDir", JsStr (mediaDir UserProfile));
                      ("logDir", JsStr (logDir UserProfile));
                      ("gatewayDir", JsStr (gatewayDir UserProfile))]);
                   ("preferences", JsObj [
                      ("language", l);
                      ("units", JsObj [("temperature", t)])])])]))])).
Proof.
  intros Hty Hq Hjob. split; [by apply onMsg_register_jobs|].
  rewrite (settle_run n _ w2 Hjob).
  destruct (settled_preferences msg sock) as (lang & temp & l & t & -> & Hl & Ht & _).
  exists l, t.
  by rewrite (register_response_json _ q lang temp l t).
Qed.

(** C10. In the register response the language is other than ["en-US"] only
    when the language lookup was answered with a truthy value, and the
    temperature unit is other than ["degree celsius"] only when its lookup
    was answered with a truthy value: an answer that is [null],
    [undefined], the empty string or otherwise falsy leaves the default. *)
Theorem falsy_preference_keeps_default (msg : Message) (sock : nat)
    (w w2 : World) (n : nat) :
  messageType msg = PLUGIN_REGISTER_REQUEST MessageType ->
  jobs w2 !! n = Some (new_closure msg sock) ->
  jobs (exec_in (onMsg MessageType msg sock) w) = jobs w ++ [new_closure msg sock] /\
  exists j l t : json,
    trace (exec_in (settle MessageType pkg_version UserProfile
                      Settings_getSetting n) w2) =
      trace w2 ++ [EvWsSend sock (Some j)] /\
    path ["data"; "preferences"; "language"] j = Some l /\
    path ["data"; "preferences"; "units"; "temperature"] j = Some t /\
    (forall v, Settings_getSetting "localization.language" = Fulfilled v ->
               truthy v = false -> l = JsStr "en-US") /\
    (l <> JsStr "en-US" ->
     exists v, Settings_getSetting "localization.language" = Fulfilled v /\
               truthy v = true /\ JSON_stringify v = Some l) /\
    (forall v, Settings_getSetting "localization.units.temperature" = Fulfilled v ->
               truthy v = false -> t = JsStr "degree celsius") /\
    (t <> JsStr "degree celsius" ->
     exists v, Settings_getSetting "localization.units.temperature" = Fulfilled v /\
               truthy v = true /\ JSON_stringify v = Some t).
Proof.
  intros Hty Hjob. split; [by apply onMsg_register_jobs|].
  unfold exec_in. rewrite (settle_run n _ w2 Hjob).
  destruct (settled_preferences msg sock)
    as (lang & temp & l & t & -> & Hl & Ht & Hlang & Htemp).
  destruct (register_response_preferences
              (mkClosure msg sock lang [("temperature", temp)]) lang temp l t)
    as (j & -> & _ & Hpl & Hpt); try done.
  exists j, l, t. do 3 (split; [done|]).
  repeat split.
  - intros v Hv Hf. destruct Hlang as [->|[Hs Htr]]; [by injection Hl as <-|].
    congruence.
  - intros Hne. destruct Hlang as [->|[Hs Htr]]; [by injection Hl as <-|].
    by exists lang.
  - intros v Hv Hf. destruct Htemp as [->|(Hs & Htr & _)]; [by injection Ht as <-|].
    congruence.
  - intros Hne. destruct Htemp as [->|(Hs & Htr & _)]; [by injection Ht as <-|].
    by exists temp.
Qed.

End Handshake.


(** A lookup that fails after the language was answered leaves the answered
    language in the response and the default temperature unit. *)
Example handshake_half_failing :
  exists j : json,
    trace (exec_in (settle sample_MessageType "1.1.0" sample_UserProfile
                      half_failing_settings 0) world_with_abc) =
      trace world_with_abc ++ [EvWsSend 3 (Some j)] /\
    path ["data"; "preferences"; "language"] j = Some (JsStr "fr") /\
    path ["data"; "preferences"; "units"; "temperature"] j =
      Some (JsStr "degree celsius").
Proof. eexists. repeat split. Qed.

Lemma register_response_payload_witness :
  jobs world_with_abc !! 0%nat = Some (new_closure (register_request "abc") 3) /\
  exists l t : json,
    settle sample_MessageType "1.1.0" sample_UserProfile stored_settings 0
      world_with_abc =
      (tt, mkWorld (manager world_with_abc) (verbose world_with_abc)
             (plugins world_with_abc) (store world_with_abc)
             (delete 0%nat (jobs world_with_abc))
             (trace world_with_abc ++ [EvWsSend 3 (Some (JsObj [
                ("messageType", JsNum 1);
                ("data", JsObj [
                   ("pluginId", JsStr "abc");
                   ("gatewayVersion", JsStr "1.1.0");
                   ("userProfile", JsObj [
                      ("addonsDir", JsStr "/home/node/.webthings/addons");
                      ("baseDir", JsStr "/home/node/.webthings");
                      ("configDir", JsStr "/home/node/.webthings/config");
                      ("dataDir", JsStr "/home/node/.webthings/data");
                      ("mediaDir", JsStr "/home/node/.webthings/media");
                      ("logDir", JsStr "/home/node/.webthings/log");
                      ("gatewayDir", JsStr "/home/node/webthings/gateway")]);
                   ("preferences", JsObj [
                      ("language", l);
                      ("units", JsObj [("temperature", t)])])])]))])).
Proof.
  split; [reflexivity|].
  apply (register_response_payload sample_MessageType "1.1.0" sample_UserProfile
           stored_settings (register_request "abc") 3 "abc"
           (constructor 0 (Some true)) world_with_abc 0);
    reflexivity.
Defined.

(** With an empty string stored as language and Fahrenheit stored as unit,
    the response has the default language and Fahrenheit. *)
Example handshake_stored_settings :
  exists j : json,
    trace (exec_in (settle sample_MessageType "1.1.0" sample_UserProfile
                      stored_settings 0) world_with_abc) =
      trace world_with_abc ++ [EvWsSend 3 (Some j)] /\
    path ["data"; "preferences"; "language"] j = Some (JsStr "en-US") /\
    path ["data"; "preferences"; "units"; "temperature"] j =
      Some (JsStr "degree fahrenheit").
Proof. eexists. repeat split. Qed.

Lemma falsy_preference_keeps_default_witness :
  jobs world_with_abc !! 0%nat = Some (new_closure (register_request "abc") 3) /\
  exists j l t : json,
    trace (exec_in (settle sample_MessageType "1.1.0" sample_UserProfile
                      stored_settings 0) world_with_abc) =
      trace world_with_abc ++ [EvWsSend 3 (Some j)] /\
    path ["data"; "preferences"; "language"] j = Some l /\
    path ["data"; "preferences"; "units"; "temperature"] j = Some t /\
    (forall v, stored_settings "localization.language" = Fulfilled v ->
               truthy v = false -> l = JsStr "en-US").
Proof.
  split; [reflexivity|].
  destruct (falsy_preference_keeps_default sample_MessageType "1.1.0"
              sample_UserProfile stored_settings (register_request "abc") 3
              (constructor 0 (Some true)) world_with_abc 0 eq_refl eq_refl)
    as (_ & j & l & t & H1 & H2 & H3 & H4 & _).
  exists j, l, t. repeat split; assumption.
Defined.

(** ** Reachable worlds *)

Lemma registry_ok_settle MT ver UP settings n w :
  registry_ok w = true ->
  registry_ok (exec_in (settle MT ver UP settings n) w) = true.
Proof.
  intros Hok. unfold exec_in. destruct (jobs w !! n) as [c|] eqn:E.
  - rewrite (settle_run MT ver UP settings n c w E). revert Hok.
    by apply registry_ok_ext.
  - unfold settle. by rewrite E.
Qed.

Lemma registry_ok_registerPlugin p w :
  registry_ok w = true -> registry_ok (exec_in (registerPlugin p) w) = true.
Proof. intros Hok. by apply registerPlugin_spec. Qed.

Lemma registry_ok_emit e w :
  registry_ok w = true -> registry_ok (exec_in (emit e) w) = true.
Proof. by apply registry_ok_ext. Qed.

Create HintDb registry.
#[local] Hint Resolve registry_ok_constructor registry_ok_onMsg registry_ok_settle
  registry_ok_loadPlugin registry_ok_registerPlugin registry_ok_unregisterPlugin
  registry_ok_emit : registry.

Lemma registry_ok_step MT ver UP settings w w' :
  step MT ver UP settings w w' -> registry_ok w = true -> registry_ok w' = true.
Proof.
  destruct 1; intros Hok; auto with registry;
    unfold addAdapter, addNotifier, addAPIHandler, shutdown, exec_in, bind, gets;
    simpl; by apply registry_ok_emit.
Qed.

(** The invariant holds in every world the server can be in. *)
Lemma reachable_registry_ok MT ver UP settings w :
  reachable MT ver UP settings w -> registry_ok w = true.
Proof.
  intros (m & v & Hrtc). revert w Hrtc. apply rtc_ind_r.
  - apply registry_ok_constructor.
  - intros w1 w2 _ Hstep IH. eauto using registry_ok_step.
Qed.

(** ** A run *)

(** Plugin ["abc"] registers on socket 3 and is answered; a notification of
    it is handed to its handler; after it is unregistered the next
    notification is dropped. *)
Example run_abc :
  let settle0 := settle sample_MessageType "1.1.0" sample_UserProfile failing_settings 0 in
  let w1 := exec_in settle0 world_with_abc in
  let w2 := exec_in (onMsg sample_MessageType (property_changed "abc") 3) w1 in
  let w3 := exec_in (unregisterPlugin (Some "abc")) w2 in
  let w4 := exec_in (onMsg sample_MessageType (property_changed "abc") 3) w3 in
  jobs w1 = [] /\
  deliveries (trace w2) = [(0%nat, property_changed "abc")] /\
  plugins w3 !! Some "abc" = None /\
  deliveries (trace w4) = [(0%nat, property_changed "abc")] /\
  store w4 = [mkPlugin (Some "abc") (Some true) None None (Some 3%nat)].
Proof. vm_compute. repeat split. Qed.

(** * Further properties of the server *)

(** ** Closed forms of the methods *)

Lemma trace_log_rcvd msg w : trace (exec_in (log_rcvd msg) w) = logged msg w.
Proof. apply log_rcvd_frame. Qed.

Lemma onMsg_register_known (MT : MessageTypeT) msg sock w r :
  messageType msg = PLUGIN_REGISTER_REQUEST MT ->
  plugins w !! pluginId (data msg) = Some r ->
  exec_in (onMsg MT msg sock) w =
    mkWorld (manager w) (verbose w) (plugins w) (alter (set_ws sock) r (store w))
      (jobs w ++ [new_closure msg sock]) (logged msg w).
Proof.
  intros Hty Hr. unfold exec_in. rewrite (onMsg_register MT msg sock w Hty).
  unfold logged. destruct w as [m v ps st js t]. simpl in *.
  unfold bind, log_rcvd, gets. simpl.
  destruct v as [[|]|]; simpl; unfold registerPlugin, bind, gets; simpl;
    rewrite Hr; simpl; rewrite ?app_nil_r; reflexivity.
Qed.

Lemma onMsg_register_fresh (MT : MessageTypeT) msg sock w :
  messageType msg = PLUGIN_REGISTER_REQUEST MT ->
  plugins w !! pluginId (data msg) = None ->
  exec_in (onMsg MT msg sock) w =
    mkWorld (manager w) (verbose w)
      (<[pluginId (data msg) := length (store w)]> (plugins w))
      (store w ++ [mkPlugin (pluginId (data msg)) (verbose w) None None (Some sock)])
      (jobs w ++ [new_closure msg sock]) (logged msg w).
Proof.
  intros Hty Hr. unfold exec_in. rewrite (onMsg_register MT msg sock w Hty).
  unfold logged. destruct w as [m v ps st js t]. simpl in *.
  unfold bind, log_rcvd, gets. simpl.
  assert (forall x : Plugin, alter (set_ws sock) (length st) (st ++ [x]) =
                             st ++ [set_ws sock x]) as Halter.
  { intros x. rewrite <- (Nat.add_0_r (length st)). by rewrite alter_app_r. }
  destruct v as [[|]|]; simpl; unfold registerPlugin, bind, gets; simpl;
    rewrite Hr; simpl; rewrite Halter, ?app_nil_r; reflexivity.
Qed.

Lemma onMsg_forward_world (MT : MessageTypeT) msg sock w r :
  messageType msg <> PLUGIN_REGISTER_REQUEST MT ->
  truthy_id (pluginId (data msg)) = true ->
  plugins w !! pluginId (data msg) = Some r ->
  exec_in (onMsg MT msg sock) w =
    mkWorld (manager w) (verbose w) (plugins w) (store w) (jobs w)
      (logged msg w ++ [EvPluginOnMsg r msg]).
Proof.
  intros Hty Hid Hr. unfold exec_in. rewrite (onMsg_forward MT msg sock w r) by done.
  unfold logged, bind, log_rcvd, gets. destruct w as [m v ps st js t]. simpl.
  destruct v as [[|]|]; simpl; rewrite ?app_nil_r; reflexivity.
Qed.

Lemma onMsg_drop_world (MT : MessageTypeT) msg sock w :
  messageType msg <> PLUGIN_REGISTER_REQUEST MT ->
  truthy_id (pluginId (data msg)) = false \/
    plugins w !! pluginId (data msg) = None ->
  exec_in (onMsg MT msg sock) w =
    mkWorld (manager w) (verbose w) (plugins w) (store w) (jobs w) (logged msg w).
Proof.
  intros Hty Hid. unfold exec_in. rewrite (onMsg_drop MT msg sock w) by done.
  unfold logged, bind, log_rcvd, gets. destruct w as [m v ps st js t]. simpl.
  destruct v as [[|]|]; simpl; rewrite ?app_nil_r; reflexivity.
Qed.

Lemma loadPlugin_known path manifest w r :
  plugins w !! Some (name manifest) = Some r ->
  exec_in (loadPlugin path manifest) w =
    mkWorld (manager w) (verbose w) (plugins w)
      (alter (set_execPath path) r
         (alter (set_exec (manifest_exec (moziot manifest))) r (store w)))
      (jobs w) (trace w ++ [EvPluginStart r]).
Proof.
  intros Hr. unfold exec_in, loadPlugin, bind.
  by rewrite (registerPlugin_known _ _ _ Hr).
Qed.

Lemma loadPlugin_fresh path manifest w :
  plugins w !! Some (name manifest) = None ->
  exec_in (loadPlugin path manifest) w =
    mkWorld (manager w) (verbose w)
      (<[Some (name manifest) := length (store w)]> (plugins w))
      (store w ++ [mkPlugin (Some (name manifest)) (verbose w)
                     (Some (manifest_exec (moziot manifest))) (Some path) None])
      (jobs w) (trace w ++ [EvPluginStart (length (store w))]).
Proof.
  intros Hr. unfold exec_in, loadPlugin, bind.
  rewrite (registerPlugin_fresh _ _ Hr). simpl. f_equal.
  rewrite <- (Nat.add_0_r (length (store w))). by rewrite !alter_app_r.
Qed.

Lemma responses_app t1 t2 : responses (t1 ++ t2) = responses t1 ++ responses t2.
Proof.
  induction t1 as [|e t1 IH]; [done|].
  destruct e; simpl; rewrite ?IH; done.
Qed.

Lemma starts_app t1 t2 : starts (t1 ++ t2) = starts t1 ++ starts t2.
Proof.
  induction t1 as [|e t1 IH]; [done|].
  destruct e; simpl; rewrite ?IH; done.
Qed.

Lemma logged_observations msg w :
  deliveries (logged msg w) = deliveries (trace w) /\
  responses (logged msg w) = responses (trace w) /\
  starts (logged msg w) = starts (trace w).
Proof.
  unfold logged. rewrite deliveries_app, responses_app, starts_app.
  destruct (verbose w) as [[|]|]; simpl; by rewrite !app_nil_r.
Qed.

(** ** Registration, again *)

(** X1. A plugin that registers after it was unregistered is a new object:
    [unregisterPlugin] forgets the old instance, so [registerPlugin] makes
    one at a fresh location, with no channel and no launch descriptor; the
    old object is not revived and not touched. *)
Theorem reregister_after_unregister_is_new (p : option string) (w : World)
    (r : nat) :
  registry_ok w = true ->
  plugins w !! p = Some r ->
  exists (r' : nat) (w' : World),
    registerPlugin p (exec_in (unregisterPlugin p) w) = (r', w') /\
    r' <> r /\
    plugins w' !! p = Some r' /\
    store w' !! r' = Some (mkPlugin p (verbose w) None None None) /\
    store w' !! r = store w !! r /\
    (forall k, k <> p -> plugins w' !! k = plugins w !! k).
Proof.
  intros Hok Hr. pose proof (registry_ok_lookup _ _ _ Hok Hr) as Hlt.
  eexists _, _. split.
  { apply registerPlugin_fresh. simpl. apply lookup_delete_eq. }
  simpl. repeat split.
  - lia.
  - apply lookup_insert_eq.
  - by apply list_lookup_middle.
  - by apply lookup_app_l.
  - intros k Hk. rewrite lookup_insert_ne by done. by apply lookup_delete_ne.
Qed.

Lemma reregister_after_unregister_is_new_witness :
  registry_ok world_with_abc = true /\
  plugins world_with_abc !! Some "abc" = Some 0%nat /\
  exists (r' : nat) (w' : World),
    registerPlugin (Some "abc") (exec_in (unregisterPlugin (Some "abc")) world_with_abc)
      = (r', w') /\
    r' <> 0%nat /\
    store w' !! r' = Some (mkPlugin (Some "abc") (Some true) None None None).
Proof.
  split; [vm_compute; reflexivity|]. split; [reflexivity|].
  destruct (reregister_after_unregister_is_new (Some "abc") world_with_abc 0%nat)
    as (r' & w' & H1 & H2 & _ & H4 & _); [vm_compute; reflexivity | reflexivity |].
  exists r', w'. repeat split; assumption.
Defined.

(** X2. The first register request of an id makes exactly one plugin
    object, bound to the socket of the request and without launch
    descriptor, and enters it in the registry under that id; the objects
    and entries that were there stay as they were. *)
Theorem onMsg_first_registration (MT : MessageTypeT) (msg : Message)
    (sock : nat) (w : World) :
  messageType msg = PLUGIN_REGISTER_REQUEST MT ->
  plugins w !! pluginId (data msg) = None ->
  let w' := exec_in (onMsg MT msg sock) w in
  plugins w' !! pluginId (data msg) = Some (length (store w)) /\
  (forall k, k <> pluginId (data msg) -> plugins w' !! k = plugins w !! k) /\
  store w' =
    store w ++ [mkPlugin (pluginId (data msg)) (verbose w) None None (Some sock)] /\
  deliveries (trace w') = deliveries (trace w) /\
  starts (trace w') = starts (trace w).
Proof.
  intros Hty Hnone w'. subst w'. rewrite (onMsg_register_fresh MT msg sock w Hty Hnone).
  simpl. destruct (logged_observations msg w) as (Hd & _ & Hs).
  repeat split; try done.
  - apply lookup_insert_eq.
  - intros k Hk. by apply lookup_insert_ne.
Qed.

Lemma onMsg_first_registration_witness :
  plugins world_with_abc !! Some "xyz" = None /\
  store (exec_in (onMsg sample_MessageType (register_request "xyz") 4) world_with_abc) =
    store world_with_abc ++ [mkPlugin (Some "xyz") (Some true) None None (Some 4%nat)].
Proof.
  split; [reflexivity|].
  apply (onMsg_first_registration sample_MessageType (register_request "xyz") 4
           world_with_abc eq_refl eq_refl).
Defined.

(** ** Loading and registering *)

(** X3. Loading a plugin and taking its register request commute: whether
    the gateway launches the plugin before or after its register request
    arrives, the registry, the plugin objects and the waiting handshakes
    come out the same. *)
Theorem loadPlugin_register_commute (MT : MessageTypeT) (path : string)
    (manifest : Manifest) (msg : Message) (sock : nat) (w : World) :
  messageType msg = PLUGIN_REGISTER_REQUEST MT ->
  pluginId (data msg) = Some (name manifest) ->
  let wa := exec_in (onMsg MT msg sock) (exec_in (loadPlugin path manifest) w) in
  let wb := exec_in (loadPlugin path manifest) (exec_in (onMsg MT msg sock) w) in
  plugins wa = plugins wb /\ store wa = store wb /\ jobs wa = jobs wb.
Proof.
  intros Hty Hid wa wb. subst wa wb.
  destruct (plugins w !! Some (name manifest)) as [r|] eqn:E.
  - rewrite (loadPlugin_known path manifest w r E).
    rewrite (onMsg_register_known MT msg sock _ r Hty) by (by rewrite Hid).
    rewrite (onMsg_register_known MT msg sock w r Hty) by (by rewrite Hid).
    rewrite (loadPlugin_known path manifest _ r) by done.
    simpl. repeat split. rewrite !list_alter_alter_eq. by apply list_alter_ext.
  - rewrite (loadPlugin_fresh path manifest w E).
    rewrite (onMsg_register_fresh MT msg sock w Hty) by (by rewrite Hid).
    rewrite (onMsg_register_known MT msg sock _ (length (store w)) Hty)
      by (rewrite Hid; apply lookup_insert_eq).
    rewrite (loadPlugin_known path manifest _ (length (store w)))
      by (simpl; rewrite Hid; apply lookup_insert_eq).
    simpl. rewrite Hid. repeat split.
    rewrite <- (Nat.add_0_r (length (store w))). by rewrite !alter_app_r.
Qed.

Lemma loadPlugin_register_commute_witness :
  store (exec_in (onMsg sample_MessageType (register_request "abc") 5)
           (exec_in (loadPlugin "/addons/abc" (mkManifest "abc" (mkMoziot "node main.js")))
              (constructor 0 None))) =
  store (exec_in (loadPlugin "/addons/abc" (mkManifest "abc" (mkMoziot "node main.js")))
           (exec_in (onMsg sample_MessageType (register_request "abc") 5)
              (constructor 0 None))).
Proof.
  apply (loadPlugin_register_commute sample_MessageType "/addons/abc"
           (mkManifest "abc" (mkMoziot "node main.js")) (register_request "abc") 5
           (constructor 0 None) eq_refl eq_refl).
Defined.

Lemma loadPlugin_attaches_and_starts_aux path manifest w :
  registry_ok w = true ->
  exists (r : nat) (pl : Plugin),
    plugins (exec_in (loadPlugin path manifest) w) !! Some (name manifest) = Some r /\
    store (exec_in (loadPlugin path manifest) w) !! r = Some pl /\
    exec pl = Some (manifest_exec (moziot manifest)) /\
    execPath pl = Some path /\
    starts (trace (exec_in (loadPlugin path manifest) w)) = starts (trace w) ++ [r].
Proof.
  intros Hok. destruct (plugins w !! Some (name manifest)) as [r|] eqn:E.
  - rewrite (loadPlugin_known path manifest w r E). simpl.
    pose proof (registry_ok_lookup _ _ _ Hok E) as Hlt.
    destruct (lookup_lt_is_Some_2 _ _ Hlt) as [pl0 Hpl0].
    exists r, (set_execPath path (set_exec (manifest_exec (moziot manifest)) pl0)).
    rewrite !list_lookup_alter_eq, Hpl0, starts_app. done.
  - rewrite (loadPlugin_fresh path manifest w E). simpl.
    eexists _, _. rewrite lookup_insert_eq, list_lookup_middle, starts_app by done.
    done.
Qed.

(** X4. A plugin the gateway has loaded and that then registers is one
    object throughout: the register request finds the instance [loadPlugin]
    prepared, binds its channel and keeps its [exec] and [execPath]; [start]
    was called on it once. *)
Theorem loaded_plugin_registers (MT : MessageTypeT) (path : string)
    (manifest : Manifest) (msg : Message) (sock : nat) (w : World) :
  registry_ok w = true ->
  messageType msg = PLUGIN_REGISTER_REQUEST MT ->
  pluginId (data msg) = Some (name manifest) ->
  let w1 := exec_in (loadPlugin path manifest) w in
  let w2 := exec_in (onMsg MT msg sock) w1 in
  exists (r : nat) (pl : Plugin),
    plugins w1 !! Some (name manifest) = Some r /\
    plugins w2 = plugins w1 /\
    length (store w2) = length (store w1) /\
    store w2 !! r = Some pl /\
    exec pl = Some (manifest_exec (moziot manifest)) /\
    execPath pl = Some path /\
    ws pl = Some sock /\
    starts (trace w2) = starts (trace w) ++ [r].
Proof.
  intros Hok Hty Hid w1 w2.
  destruct (loadPlugin_attaches_and_starts_aux path manifest w Hok)
    as (r & pl & Hreg & Hpl & He & Hp & Hst).
  exists r, (set_ws sock pl). subst w2.
  fold w1 in Hreg, Hpl, Hst. clearbody w1.
  rewrite (onMsg_register_known MT msg sock w1 r Hty) by (by rewrite Hid).
  simpl. rewrite length_alter, list_lookup_alter_eq, Hpl.
  destruct (logged_observations msg w1) as (_ & _ & ->).
  repeat split; done.
Qed.

Lemma loaded_plugin_registers_witness :
  registry_ok (constructor 0 None) = true /\
  exists (r : nat) (pl : Plugin),
    store (exec_in (onMsg sample_MessageType (register_request "abc") 5)
             (exec_in (loadPlugin "/addons/abc"
                         (mkManifest "abc" (mkMoziot "node main.js")))
                (constructor 0 None))) !! r = Some pl /\
    exec pl = Some "node main.js" /\ execPath pl = Some "/addons/abc" /\
    ws pl = Some 5%nat.
Proof.
  split; [vm_compute; reflexivity|].
  destruct (loaded_plugin_registers sample_MessageType "/addons/abc"
              (mkManifest "abc" (mkMoziot "node main.js")) (register_request "abc") 5
              (constructor 0 None))
    as (r & pl & _ & _ & _ & H1 & H2 & H3 & H4 & _);
    [vm_compute; reflexivity | reflexivity | reflexivity |].
  exists r, pl. repeat split; assumption.
Defined.

(** X5. [loadPlugin] does not look whether the plugin was loaded before: a
    second load of the same id keeps the instance, overwrites its [exec]
    and [execPath] with those of the second call, and calls [start] on it
    again. *)
Theorem loadPlugin_again_overwrites_and_restarts (path1 path2 : string)
    (manifest1 manifest2 : Manifest) (w : World) :
  registry_ok w = true ->
  name manifest2 = name manifest1 ->
  let w1 := exec_in (loadPlugin path1 manifest1) w in
  let w2 := exec_in (loadPlugin path2 manifest2) w1 in
  exists (r : nat) (pl : Plugin),
    plugins w1 !! Some (name manifest1) = Some r /\
    plugins w2 = plugins w1 /\
    length (store w2) = length (store w1) /\
    store w2 !! r = Some pl /\
    exec pl = Some (manifest_exec (moziot manifest2)) /\
    execPath pl = Some path2 /\
    starts (trace w2) = starts (trace w) ++ [r; r].
Proof.
  intros Hok Hname w1 w2.
  destruct (loadPlugin_attaches_and_starts_aux path1 manifest1 w Hok)
    as (r & pl & Hreg & Hpl & _ & _ & Hst).
  exists r, (set_execPath path2 (set_exec (manifest_exec (moziot manifest2)) pl)).
  subst w2. fold w1 in Hreg, Hpl, Hst. clearbody w1.
  rewrite (loadPlugin_known path2 manifest2 w1 r) by (by rewrite Hname).
  simpl. rewrite !length_alter, !list_lookup_alter_eq, Hpl, starts_app, Hst.
  rewrite <- app_assoc. repeat split; done.
Qed.

Lemma loadPlugin_again_overwrites_and_restarts_witness :
  registry_ok (constructor 0 None) = true /\
  starts (trace (exec_in (loadPlugin "/addons/abc-2"
                            (mkManifest "abc" (mkMoziot "python3 main.py")))
                   (exec_in (loadPlugin "/addons/abc"
                               (mkManifest "abc" (mkMoziot "node main.js")))
                      (constructor 0 None)))) = [0%nat; 0%nat].
Proof.
  split; [vm_compute; reflexivity|].
  destruct (loadPlugin_again_overwrites_and_restarts "/addons/abc" "/addons/abc-2"
              (mkManifest "abc" (mkMoziot "node main.js"))
              (mkManifest "abc" (mkMoziot "python3 main.py")) (constructor 0 None))
    as (r & pl & H1 & _ & _ & _ & _ & _ & H7);
    [vm_compute; reflexivity | reflexivity |].
  vm_compute in H1. injection H1 as <-. exact H7.
Defined.

(** ** Dispatch, again *)

(** X6. For a message that is not a register request the socket it came on
    plays no part: [onMsg] routes by the plugin id alone, and does the same
    whichever connection delivered the message. *)
Theorem onMsg_dispatch_ignores_socket (MT : MessageTypeT) (msg : Message)
    (sock1 sock2 : nat) (w : World) :
  messageType msg <> PLUGIN_REGISTER_REQUEST MT ->
  onMsg MT msg sock1 w = onMsg MT msg sock2 w.
Proof.
  intros Hty.
  destruct (truthy_id (pluginId (data msg))) eqn:Et;
    [destruct (plugins w !! pluginId (data msg)) as [r|] eqn:E|].
  - by rewrite !(onMsg_forward MT msg _ w r).
  - by rewrite !(onMsg_drop MT msg _ w) by auto.
  - by rewrite !(onMsg_drop MT msg _ w) by auto.
Qed.

Lemma onMsg_dispatch_ignores_socket_witness :
  messageType (property_changed "abc") <> PLUGIN_REGISTER_REQUEST sample_MessageType /\
  onMsg sample_MessageType (property_changed "abc") 3 world_with_abc =
  onMsg sample_MessageType (property_changed "abc") 77 world_with_abc.
Proof.
  split; [discriminate|].
  apply (onMsg_dispatch_ignores_socket sample_MessageType (property_changed "abc") 3 77
           world_with_abc); discriminate.
Defined.

(** ** Runs *)

Lemma run_app MT ver UP cs1 cs2 w :
  run MT ver UP (cs1 ++ cs2) w = run MT ver UP cs2 (run MT ver UP cs1 w).
Proof. revert w. induction cs1 as [|c cs1 IH]; intros w; [done|]. apply IH. Qed.

Lemma run_snoc MT ver UP cs c w :
  run MT ver UP (cs ++ [c]) w = call MT ver UP c (run MT ver UP cs w).
Proof. by rewrite run_app. Qed.

Lemma register_requests_app MT cs1 cs2 :
  register_requests MT (cs1 ++ cs2) =
    register_requests MT cs1 ++ register_requests MT cs2.
Proof.
  induction cs1 as [|c cs1 IH]; [done|].
  destruct c; simpl; try done.
  destruct (messageType msg =? PLUGIN_REGISTER_REQUEST MT)%Z; simpl; by rewrite IH.
Qed.

(** What a call can do to registry and store: nothing; a field write on one
    object; a new object entered under a new id; an entry taken out. *)
Lemma call_registry_shape MT ver UP c w :
  let w' := call MT ver UP c w in
  (plugins w' = plugins w /\ store w' = store w) \/
  (plugins w' = plugins w /\
   exists r f, store w' = alter f r (store w) /\
               forall x, plugin_id (f x) = plugin_id x) \/
  (exists p x, plugins w !! p = None /\
               plugins w' = <[p := length (store w)]> (plugins w) /\
               store w' = store w ++ [x] /\ plugin_id x = p) \/
  (exists p, c = CallUnregisterPlugin p /\
             plugins w' = delete p (plugins w) /\ store w' = store w).
Proof.
  destruct c as [msg sock|answers n|path manifest|p|p|x|x|x|]; simpl.
  - destruct (Z.eq_dec (messageType msg) (PLUGIN_REGISTER_REQUEST MT)) as [Hty|Hty].
    + destruct (plugins w !! pluginId (data msg)) as [r|] eqn:E.
      * rewrite (onMsg_register_known MT msg sock w r Hty E). simpl.
        right; left. split; [done|]. by exists r, (set_ws sock).
      * rewrite (onMsg_register_fresh MT msg sock w Hty E). simpl.
        right; right; left. by eexists _, _.
    + left. destruct (truthy_id (pluginId (data msg))) eqn:Et;
        [destruct (plugins w !! pluginId (data msg)) as [r|] eqn:E|].
      * by rewrite (onMsg_forward_world MT msg sock w r).
      * by rewrite (onMsg_drop_world MT msg sock w) by auto.
      * by rewrite (onMsg_drop_world MT msg sock w) by auto.
  - left. unfold exec_in. destruct (jobs w !! n) as [cl|] eqn:E.
    + by rewrite (settle_run MT ver UP answers n cl w E).
    + unfold settle. by rewrite E.
  - destruct (plugins w !! Some (name manifest)) as [r|] eqn:E.
    + rewrite (loadPlugin_known path manifest w r E). simpl.
      right; left. split; [done|].
      exists r, (set_execPath path ∘ set_exec (manifest_exec (moziot manifest))).
      by rewrite list_alter_alter_eq.
    + rewrite (loadPlugin_fresh path manifest w E). simpl.
      right; right; left. by eexists _, _.
  - unfold exec_in. destruct (plugins w !! p) as [r|] eqn:E.
    + left. by rewrite (registerPlugin_known _ _ _ E).
    + rewrite (registerPlugin_fresh _ _ E). simpl.
      right; right; left. by eexists _, _.
  - right; right; right. by exists p.
  - by left.
  - by left.
  - by left.
  - by left.
Qed.

(** No call takes a plugin object away or changes the id it was made for. *)
Lemma call_keeps_objects MT ver UP c w r pl :
  store w !! r = Some pl ->
  exists pl', store (call MT ver UP c w) !! r = Some pl' /\
              plugin_id pl' = plugin_id pl.
Proof.
  intros Hpl.
  destruct (call_registry_shape MT ver UP c w)
    as [[_ ->]|[(_ & r0 & f & -> & Hf)|[(p & x & _ & _ & -> & _)|(p & _ & _ & ->)]]].
  - eauto.
  - rewrite list_lookup_alter. case_decide; subst; rewrite ?Hpl; simpl; eauto.
  - exists pl. split; [|done]. rewrite lookup_app_l; [done|].
    by apply lookup_lt_Some in Hpl.
  - eauto.
Qed.

Lemma call_created_for MT ver UP c w :
  created_for w -> created_for (call MT ver UP c w).
Proof.
  intros Hinv k r.
  destruct (call_registry_shape MT ver UP c w)
    as [[-> ->]|[(-> & r0 & f & -> & Hf)|[(p & x & Hp & -> & -> & Hx)|(p & _ & -> & ->)]]].
  - apply Hinv.
  - intros Hk. destruct (Hinv k r Hk) as (pl & Hpl & Hid).
    rewrite list_lookup_alter. case_decide; subst; rewrite ?Hpl; simpl; eauto.
  - rewrite lookup_insert. case_decide.
    + intros [= <-]. subst k. exists x. split; [|done]. by apply list_lookup_middle.
    + intros Hk. destruct (Hinv k r Hk) as (pl & Hpl & Hid). exists pl.
      split; [|done]. rewrite lookup_app_l; [done|]. by apply lookup_lt_Some in Hpl.
  - intros [_ Hk]%lookup_delete_Some. by apply Hinv.
Qed.

Lemma created_for_constructor m v : created_for (constructor m v).
Proof. intros k r. simpl. by rewrite lookup_empty. Qed.

Lemma run_created_for MT ver UP cs w :
  created_for w -> created_for (run MT ver UP cs w).
Proof.
  revert w. induction cs as [|c cs IH]; intros w Hw; [done|].
  simpl. apply IH. by apply call_created_for.
Qed.

(** X7. At any point of any run of the server no plugin object is
    registered under two ids: the registry is one-to-one. *)
Theorem registry_one_to_one (MT : MessageTypeT) (ver : string) (UP : UserProfileT)
    (cs : list Call) (m : nat) (v : option bool) (k1 k2 : option string) (r : nat) :
  plugins (run MT ver UP cs (constructor m v)) !! k1 = Some r ->
  plugins (run MT ver UP cs (constructor m v)) !! k2 = Some r ->
  k1 = k2.
Proof.
  intros H1 H2.
  pose proof (run_created_for MT ver UP cs _ (created_for_constructor m v)) as Hinv.
  destruct (Hinv k1 r H1) as (pl1 & Hpl1 & <-).
  destruct (Hinv k2 r H2) as (pl2 & Hpl2 & <-). congruence.
Qed.

(** X8. Only [unregisterPlugin] takes an entry out of the registry, and
    nothing re-points one: any other call, also a register request or a
    load for the same id, leaves each id with the plugin object it had. *)
Theorem registry_entry_kept (MT : MessageTypeT) (ver : string) (UP : UserProfileT)
    (c : Call) (w : World) (k : option string) (r : nat) :
  plugins w !! k = Some r ->
  c <> CallUnregisterPlugin k ->
  plugins (call MT ver UP c w) !! k = Some r.
Proof.
  intros Hk Hc.
  destruct (call_registry_shape MT ver UP c w)
    as [[-> _]|[(-> & _)|[(p & x & Hp & -> & _)|(p & -> & -> & _)]]]; try done.
  - rewrite lookup_insert_ne; [done|]. intros ->. congruence.
  - rewrite lookup_delete_ne; [done|]. congruence.
Qed.

Lemma registry_one_to_one_witness :
  plugins (run sample_MessageType "1.1.0" sample_UserProfile
             [CallOnMsg (register_request "abc") 3;
              CallLoadPlugin "/addons/xyz" (mkManifest "xyz" (mkMoziot "node main.js"))]
             (constructor 0 None)) !! Some "xyz" = Some 1%nat /\
  Some "xyz" = Some "xyz".
Proof.
  split; [reflexivity|].
  apply (registry_one_to_one sample_MessageType "1.1.0" sample_UserProfile
           [CallOnMsg (register_request "abc") 3;
            CallLoadPlugin "/addons/xyz" (mkManifest "xyz" (mkMoziot "node main.js"))]
           0 None (Some "xyz") (Some "xyz") 1%nat); reflexivity.
Defined.

Lemma registry_entry_kept_witness :
  plugins world_with_abc !! Some "abc" = Some 0%nat /\
  plugins (call sample_MessageType "1.1.0" sample_UserProfile
             (CallLoadPlugin "/addons/abc" (mkManifest "abc" (mkMoziot "node main.js")))
             world_with_abc) !! Some "abc" = Some 0%nat.
Proof.
  split; [reflexivity|].
  apply (registry_entry_kept sample_MessageType "1.1.0" sample_UserProfile
           (CallLoadPlugin "/addons/abc" (mkManifest "abc" (mkMoziot "node main.js")))
           world_with_abc (Some "abc") 0%nat); [reflexivity | discriminate].
Defined.

(** What a call adds to the deliveries, to the responses and to the
    waiting handshakes: a register request adds a waiting handshake; a
    routed message adds a delivery; a runtime turn on a waiting handshake
    turns it into a response; everything else adds nothing. *)
Lemma call_observations MT ver UP c w :
  let w' := call MT ver UP c w in
  (exists msg sock,
      c = CallOnMsg msg sock /\
      messageType msg = PLUGIN_REGISTER_REQUEST MT /\
      deliveries (trace w') = deliveries (trace w) /\
      responses (trace w') = responses (trace w) /\
      jobs w' = jobs w ++ [new_closure msg sock]) \/
  (exists msg sock r,
      c = CallOnMsg msg sock /\
      messageType msg <> PLUGIN_REGISTER_REQUEST MT /\
      plugins w !! pluginId (data msg) = Some r /\
      deliveries (trace w') = deliveries (trace w) ++ [(r, msg)] /\
      responses (trace w') = responses (trace w) /\
      jobs w' = jobs w) \/
  (exists answers n cl,
      c = CallSettle answers n /\
      jobs w !! n = Some cl /\
      deliveries (trace w') = deliveries (trace w) /\
      responses (trace w') =
        responses (trace w) ++
          [(c_ws cl, JSON_stringify (register_response MT ver UP
                                       (settled_closure answers cl)))] /\
      jobs w' = delete n (jobs w)) \/
  (register_requests MT [c] = [] /\
   deliveries (trace w') = deliveries (trace w) /\
   responses (trace w') = responses (trace w) /\
   jobs w' = jobs w).
Proof.
  destruct c as [msg sock|answers n|path manifest|p|p|x|x|x|]; simpl.
  - destruct (logged_observations msg w) as (Hd & Hr & _).
    destruct (Z.eq_dec (messageType msg) (PLUGIN_REGISTER_REQUEST MT)) as [Hty|Hty];
      [|pose proof Hty as Hneq; apply Z.eqb_neq in Hneq; rewrite Hneq].
    + left. exists msg, sock. do 2 (split; [done|]).
      destruct (plugins w !! pluginId (data msg)) as [r|] eqn:E.
      * by rewrite (onMsg_register_known MT msg sock w r Hty E).
      * by rewrite (onMsg_register_fresh MT msg sock w Hty E).
    + destruct (truthy_id (pluginId (data msg))) eqn:Et;
        [destruct (plugins w !! pluginId (data msg)) as [r|] eqn:E|].
      * right; left. exists msg, sock, r. do 3 (split; [done|]).
        rewrite (onMsg_forward_world MT msg sock w r) by done. simpl.
        rewrite deliveries_app, responses_app, Hd, Hr. simpl.
        by rewrite app_nil_r.
      * right; right; right.
        by rewrite (onMsg_drop_world MT msg sock w) by auto.
      * right; right; right.
        by rewrite (onMsg_drop_world MT msg sock w) by auto.
  - unfold exec_in. destruct (jobs w !! n) as [cl|] eqn:E.
    + right; right; left. exists answers, n, cl. do 2 (split; [done|]).
      rewrite (settle_run MT ver UP answers n cl w E). simpl.
      rewrite deliveries_app, responses_app. simpl. by rewrite app_nil_r.
    + right; right; right. unfold settle. by rewrite E.
  - right; right; right.
    destruct (plugins w !! Some (name manifest)) as [r|] eqn:E.
    + rewrite (loadPlugin_known path manifest w r E). simpl.
      rewrite deliveries_app, responses_app. simpl. by rewrite !app_nil_r.
    + rewrite (loadPlugin_fresh path manifest w E). simpl.
      rewrite deliveries_app, responses_app. simpl. by rewrite !app_nil_r.
  - right; right; right. unfold exec_in.
    destruct (registerPlugin_frame p w) as (-> & -> & _). done.
  - right; right; right. done.
  - right; right; right. simpl.
    rewrite deliveries_app, responses_app. simpl. by rewrite !app_nil_r.
  - right; right; right. simpl.
    rewrite deliveries_app, responses_app. simpl. by rewrite !app_nil_r.
  - right; right; right. simpl.
    rewrite deliveries_app, responses_app. simpl. by rewrite !app_nil_r.
  - right; right; right. simpl.
    rewrite deliveries_app, responses_app. simpl. by rewrite !app_nil_r.
Qed.

(** ** Deliveries in a run *)

Lemma call_delivered MT ver UP c w :
  created_for w ->
  (forall r msg, (r, msg) ∈ deliveries (trace w) ->
                 exists pl, store w !! r = Some pl /\
                            plugin_id pl = pluginId (data msg)) ->
  forall r msg, (r, msg) ∈ deliveries (trace (call MT ver UP c w)) ->
                exists pl, store (call MT ver UP c w) !! r = Some pl /\
                           plugin_id pl = pluginId (data msg).
Proof.
  intros Hinv Hold r msg Hin.
  assert ((r, msg) ∈ deliveries (trace w) \/
          plugins w !! pluginId (data msg) = Some r) as [Hin'|Hreg].
  { destruct (call_observations MT ver UP c w)
      as [(? & ? & _ & _ & Hd & _)|[(msg' & sock & r' & _ & _ & Hreg & Hd & _)
         |[(? & ? & ? & _ & _ & Hd & _)|(_ & Hd & _)]]];
      rewrite Hd in Hin; auto.
    apply elem_of_app in Hin as [?|Hin]; [by left|].
    apply list_elem_of_singleton in Hin. injection Hin as -> ->. by right. }
  - destruct (Hold r msg Hin') as (pl & Hpl & Hid).
    destruct (call_keeps_objects MT ver UP c w r pl Hpl) as (pl' & ? & ?).
    exists pl'. split; congruence.
  - destruct (Hinv _ r Hreg) as (pl & Hpl & Hid).
    destruct (call_keeps_objects MT ver UP c w r pl Hpl) as (pl' & ? & ?).
    exists pl'. split; congruence.
Qed.

Lemma run_delivered MT ver UP cs w :
  created_for w ->
  (forall r msg, (r, msg) ∈ deliveries (trace w) ->
                 exists pl, store w !! r = Some pl /\
                            plugin_id pl = pluginId (data msg)) ->
  forall r msg, (r, msg) ∈ deliveries (trace (run MT ver UP cs w)) ->
                exists pl, store (run MT ver UP cs w) !! r = Some pl /\
                           plugin_id pl = pluginId (data msg).
Proof.
  revert w. induction cs as [|c cs IH]; intros w Hinv Hold; [done|].
  simpl. apply IH; [by apply call_created_for | by apply call_delivered].
Qed.

(** X9. In any run of the server a message is only ever handed to the
    handler of the plugin object that was made for the plugin id the
    message carries; the object is still in the store, whatever was
    registered, unregistered or registered anew in between. *)
Theorem delivered_to_plugin_of_that_id (MT : MessageTypeT) (ver : string)
    (UP : UserProfileT) (cs : list Call) (m : nat) (v : option bool)
    (r : nat) (msg : Message) :
  (r, msg) ∈ deliveries (trace (run MT ver UP cs (constructor m v))) ->
  exists pl, store (run MT ver UP cs (constructor m v)) !! r = Some pl /\
             plugin_id pl = pluginId (data msg).
Proof.
  apply run_delivered; [apply created_for_constructor|].
  simpl. intros r' msg' Hin. by apply elem_of_nil in Hin.
Qed.

(** ["abc"] registers, gets a message, is unregistered and registers anew;
    the message went to the first object, which was made for ["abc"]. *)
Lemma delivered_to_plugin_of_that_id_witness :
  exists pl,
    store (run sample_MessageType "1.1.0" sample_UserProfile
             [CallOnMsg (register_request "abc") 3;
              CallOnMsg (property_changed "abc") 3;
              CallUnregisterPlugin (Some "abc");
              CallOnMsg (register_request "abc") 4]
             (constructor 0 None)) !! 0%nat = Some pl /\
    plugin_id pl = Some "abc".
Proof.
  apply (delivered_to_plugin_of_that_id sample_MessageType "1.1.0" sample_UserProfile
           [CallOnMsg (register_request "abc") 3;
            CallOnMsg (property_changed "abc") 3;
            CallUnregisterPlugin (Some "abc");
            CallOnMsg (register_request "abc") 4]
           0 None 0%nat (property_changed "abc")).
  vm_compute. apply list_elem_of_here.
Defined.

(** ** Handshakes in a run *)

Lemma call_handshakes MT ver UP c w :
  (length (jobs (call MT ver UP c w)) +
   length (responses (trace (call MT ver UP c w))))%nat =
  (length (jobs w) + length (responses (trace w)) +
   length (register_requests MT [c]))%nat.
Proof.
  destruct (call_observations MT ver UP c w)
    as [(msg & sock & -> & Hty & _ & -> & ->)
       |[(msg & sock & r & -> & Hty & _ & _ & -> & ->)
       |[(answers & n & cl & -> & Hn & _ & -> & ->)|(-> & _ & -> & ->)]]].
  - simpl. apply Z.eqb_eq in Hty. rewrite Hty, length_app. simpl. lia.
  - simpl. apply Z.eqb_neq in Hty. rewrite Hty. simpl. lia.
  - simpl. rewrite length_app, length_delete by eauto. simpl.
    apply lookup_lt_Some in Hn. lia.
  - simpl. lia.
Qed.

(** X10. No handshake is lost and none is answered twice: at any point of
    any run, the responses sent so far and the handshakes still waiting
    together are as many as the register requests taken so far. *)
Theorem handshakes_accounted_for (MT : MessageTypeT) (ver : string)
    (UP : UserProfileT) (cs : list Call) (m : nat) (v : option bool) :
  (length (responses (trace (run MT ver UP cs (constructor m v)))) +
   length (jobs (run MT ver UP cs (constructor m v))))%nat =
  length (register_requests MT cs).
Proof.
  induction cs as [|c cs IH] using rev_ind; [done|].
  rewrite run_snoc, register_requests_app, length_app.
  pose proof (call_handshakes MT ver UP c (run MT ver UP cs (constructor m v))). lia.
Qed.

(** The register response echoes the plugin id of the request it answers;
    without an id in the request the member is left out. *)
Lemma register_response_echo MT ver UP (c : Closure) (lang temp : jsval)
    (l t : json) :
  language c = lang -> units c = [("temperature", temp)] ->
  JSON_stringify lang = Some l -> JSON_stringify temp = Some t ->
  exists j,
    JSON_stringify (register_response MT ver UP c) = Some j /\
    path ["messageType"] j = Some (JsNum (PLUGIN_REGISTER_RESPONSE MT)) /\
    path ["data"; "pluginId"] j =
      JSON_stringify (id_value (pluginId (data (c_msg c)))) /\
    path ["data"; "gatewayVersion"] j = Some (JsStr ver).
Proof.
  intros Hl Hu Hsl Hst. unfold register_response. rewrite Hl, Hu. simpl.
  rewrite Hsl, Hst. eexists. split; [reflexivity|].
  destruct (pluginId (data (c_msg c))); done.
Qed.

Lemma settled_response_echo MT ver UP answers msg sock :
  exists j,
    JSON_stringify (register_response MT ver UP
                      (settled_closure answers (new_closure msg sock))) = Some j /\
    c_ws (settled_closure answers (new_closure msg sock)) = sock /\
    path ["messageType"] j = Some (JsNum (PLUGIN_REGISTER_RESPONSE MT)) /\
    path ["data"; "pluginId"] j = JSON_stringify (id_value (pluginId (data msg))) /\
    path ["data"; "gatewayVersion"] j = Some (JsStr ver).
Proof.
  destruct (settled_preferences answers msg sock)
    as (lang & temp & l & t & -> & Hl & Ht & _).
  destruct (register_response_echo MT ver UP
              (mkClosure msg sock lang [("temperature", temp)]) lang temp l t)
    as (j & ? & ? & ? & ?); try done.
  by exists j.
Qed.

Lemma run_responses MT ver UP cs m v :
  (forall cl, cl ∈ jobs (run MT ver UP cs (constructor m v)) ->
              exists msg sock, cl = new_closure msg sock /\
                               (msg, sock) ∈ register_requests MT cs) /\
  (forall sock text,
      (sock, text) ∈ responses (trace (run MT ver UP cs (constructor m v))) ->
      exists msg j,
        (msg, sock) ∈ register_requests MT cs /\ text = Some j /\
        path ["messageType"] j = Some (JsNum (PLUGIN_REGISTER_RESPONSE MT)) /\
        path ["data"; "pluginId"] j =
          JSON_stringify (id_value (pluginId (data msg)))).
Proof.
  induction cs as [|c cs [IHj IHr]] using rev_ind.
  { split; simpl; intros; by match goal with H : _ ∈ [] |- _ =>
                                              apply elem_of_nil in H end. }
  rewrite run_snoc, register_requests_app.
  set (w := run MT ver UP cs (constructor m v)) in *.
  assert (forall x, x ∈ register_requests MT cs ->
                    x ∈ register_requests MT cs ++ register_requests MT [c]) as Hmono.
  { intros x Hx. apply elem_of_app. by left. }
  destruct (call_observations MT ver UP c w)
    as [(msg & sock & -> & Hty & _ & -> & ->)
       |[(msg & sock & r & -> & Hty & _ & _ & -> & ->)
       |[(answers & n & cl & -> & Hn & _ & -> & ->)|(_ & _ & -> & ->)]]].
  - split.
    + intros cl [Hcl|Hcl]%elem_of_app.
      * destruct (IHj cl Hcl) as (msg' & sock' & ? & ?). eauto.
      * apply list_elem_of_singleton in Hcl. subst cl. exists msg, sock.
        split; [done|]. apply elem_of_app. right. simpl.
        apply Z.eqb_eq in Hty. rewrite Hty. apply list_elem_of_here.
    + intros sock' text Hin. destruct (IHr sock' text Hin) as (msg' & j & ? & ?).
      eauto.
  - split.
    + intros cl Hcl. destruct (IHj cl Hcl) as (msg' & sock' & ? & ?). eauto.
    + intros sock' text Hin. destruct (IHr sock' text Hin) as (msg' & j & ? & ?).
      eauto.
  - split.
    + intros cl' Hcl%list_elem_of_delete_inv.
      destruct (IHj cl' Hcl) as (msg' & sock' & ? & ?). eauto.
    + intros sock' text [Hin|Hin]%elem_of_app.
      * destruct (IHr sock' text Hin) as (msg' & j & ? & ?). eauto.
      * apply list_elem_of_singleton in Hin.
        destruct (IHj cl) as (msg & sock & -> & Hreq).
        { apply list_elem_of_lookup. eauto. }
        destruct (settled_response_echo MT ver UP answers msg sock)
          as (j & Hj & _ & ? & ? & _).
        rewrite Hj in Hin. injection Hin as -> ->.
        exists msg, j. simpl. auto.
  - split.
    + intros cl Hcl. destruct (IHj cl Hcl) as (msg' & sock' & ? & ?). eauto.
    + intros sock' text Hin. destruct (IHr sock' text Hin) as (msg' & j & ? & ?).
      eauto.
Qed.

(** X11. Whatever the server sends on a socket is a register response to a
    register request that came on that socket, and it echoes the plugin id
    of that request: the server sends nothing else, and nothing to a socket
    that did not ask. *)
Theorem responses_answer_register_requests (MT : MessageTypeT) (ver : string)
    (UP : UserProfileT) (cs : list Call) (m : nat) (v : option bool)
    (sock : nat) (text : option json) :
  (sock, text) ∈ responses (trace (run MT ver UP cs (constructor m v))) ->
  exists (msg : Message) (j : json),
    (msg, sock) ∈ register_requests MT cs /\
    text = Some j /\
    path ["messageType"] j = Some (JsNum (PLUGIN_REGISTER_RESPONSE MT)) /\
    path ["data"; "pluginId"] j = JSON_stringify (id_value (pluginId (data msg))).
Proof. apply run_responses. Qed.

Lemma responses_answer_register_requests_witness :
  exists (msg : Message) (j : json),
    (msg, 3%nat) ∈ register_requests sample_MessageType
                     [CallOnMsg (register_request "abc") 3;
                      CallSettle failing_settings 0] /\
    path ["data"; "pluginId"] j = JSON_stringify (id_value (pluginId (data msg))).
Proof.
  destruct (responses_answer_register_requests sample_MessageType "1.1.0"
              sample_UserProfile
              [CallOnMsg (register_request "abc") 3; CallSettle failing_settings 0]
              0 None 3%nat
              (JSON_stringify (register_response sample_MessageType "1.1.0"
                                 sample_UserProfile
                                 (new_closure (register_request "abc") 3))))
    as (msg & j & H1 & _ & _ & H4).
  { vm_compute. apply list_elem_of_here. }
  exists msg, j. split; assumption.
Defined.

(** ** The handshake, again *)

Section HandshakeAnswers.

Variable MessageType : MessageTypeT.
Variable pkg_version : string.
Variable UserProfile : UserProfileT.

(** The response of a settled handshake, by the closure variables. *)
Lemma settle_response (answers : string -> Settled jsval) (msg : Message)
    (sock : nat) (w : World) (n : nat) :
  jobs w !! n = Some (new_closure msg sock) ->
  exists (lang temp : jsval) (j l t : json),
    settled_closure answers (new_closure msg sock) =
      mkClosure msg sock lang [("temperature", temp)] /\
    JSON_stringify lang = Some l /\ JSON_stringify temp = Some t /\
    exec_in (settle MessageType pkg_version UserProfile answers n) w =
      mkWorld (manager w) (verbose w) (plugins w) (store w) (delete n (jobs w))
        (trace w ++ [EvWsSend sock (Some j)]) /\
    path ["data"; "preferences"; "language"] j = Some l /\
    path ["data"; "preferences"; "units"; "temperature"] j = Some t /\
    path ["data"; "pluginId"] j = JSON_stringify (id_value (pluginId (data msg))) /\
    path ["data"; "gatewayVersion"] j = Some (JsStr pkg_version).
Proof.
  intros Hjob. unfold exec_in. rewrite (settle_run _ _ _ _ n _ w Hjob).
  destruct (settled_preferences answers msg sock)
    as (lang & temp & l & t & Hc & Hl & Ht & _).
  rewrite Hc.
  destruct (register_response_preferences MessageType pkg_version UserProfile
              (mkClosure msg sock lang [("temperature", temp)]) lang temp l t)
    as (j & Hj & _ & ? & ?); try done.
  destruct (register_response_echo MessageType pkg_version UserProfile
              (mkClosure msg sock lang [("temperature", temp)]) lang temp l t)
    as (j' & Hj' & _ & ? & ?); try done.
  assert (j' = j) as -> by congruence.
  exists lang, temp, j, l, t. rewrite Hj. simpl. done.
Qed.

(** X12. When the language lookup fails, the response has both defaults,
    whatever the settings store would answer for the temperature unit: a
    unit held by the settings store does not reach the response. *)
Theorem language_failure_discards_unit (answers : string -> Settled jsval)
    (msg : Message) (sock : nat) (w : World) (n : nat) :
  jobs w !! n = Some (new_closure msg sock) ->
  is_rejected (answers "localization.language") = true ->
  exists j : json,
    responses (trace (exec_in (settle MessageType pkg_version UserProfile answers n) w))
      = responses (trace w) ++ [(sock, Some j)] /\
    path ["data"; "preferences"; "language"] j = Some (JsStr "en-US") /\
    path ["data"; "preferences"; "units"; "temperature"] j =
      Some (JsStr "degree celsius").
Proof.
  intros Hjob Hrej.
  destruct (settle_response answers msg sock w n Hjob)
    as (lang & temp & j & l & t & Hc & Hl & Ht & -> & Hpl & Hpt & _).
  exists j. split; [cbn [trace]; by rewrite responses_app|].
  unfold settled_closure in Hc.
  destruct (answers "localization.language"); [done|].
  injection Hc as <- <-. injection Hl as <-. injection Ht as <-. done.
Qed.

(** X13. When the language lookup is answered with a truthy value and the
    unit lookup fails, the response has the answered language and the
    default unit: what was assigned before the failure stays assigned. *)
Theorem unit_failure_keeps_language (answers : string -> Settled jsval)
    (msg : Message) (sock : nat) (w : World) (n : nat) (v : jsval) :
  jobs w !! n = Some (new_closure msg sock) ->
  answers "localization.language" = Fulfilled v ->
  truthy v = true ->
  is_rejected (answers "localization.units.temperature") = true ->
  exists j : json,
    responses (trace (exec_in (settle MessageType pkg_version UserProfile answers n) w))
      = responses (trace w) ++ [(sock, Some j)] /\
    path ["data"; "preferences"; "language"] j = JSON_stringify v /\
    path ["data"; "preferences"; "units"; "temperature"] j =
      Some (JsStr "degree celsius").
Proof.
  intros Hjob Hv Htr Hrej.
  destruct (settle_response answers msg sock w n Hjob)
    as (lang & temp & j & l & t & Hc & Hl & Ht & -> & Hpl & Hpt & _).
  exists j. split; [cbn [trace]; by rewrite responses_app|].
  unfold settled_closure in Hc. rewrite Hv, Htr in Hc.
  destruct (answers "localization.units.temperature"); [done|].
  injection Hc as <- <-. injection Ht as <-. by rewrite Hl.
Qed.

(** X14. Truthy answers are what the response carries: a truthy language
    answer is the response's language, and, the language lookup having
    been answered at all (truthy or not), a truthy unit answer is the
    response's temperature unit. *)
Theorem truthy_answers_are_sent (answers : string -> Settled jsval)
    (msg : Message) (sock : nat) (w : World) (n : nat) (v u : jsval) :
  jobs w !! n = Some (new_closure msg sock) ->
  answers "localization.language" = Fulfilled v ->
  answers "localization.units.temperature" = Fulfilled u ->
  truthy u = true ->
  exists j : json,
    responses (trace (exec_in (settle MessageType pkg_version UserProfile answers n) w))
      = responses (trace w) ++ [(sock, Some j)] /\
    path ["data"; "preferences"; "units"; "temperature"] j = JSON_stringify u /\
    path ["data"; "preferences"; "language"] j =
      (if truthy v then JSON_stringify v else Some (JsStr "en-US")).
Proof.
  intros Hjob Hv Hu Htr.
  destruct (settle_response answers msg sock w n Hjob)
    as (lang & temp & j & l & t & Hc & Hl & Ht & -> & Hpl & Hpt & _).
  exists j. split; [cbn [trace]; by rewrite responses_app|].
  unfold settled_closure in Hc. rewrite Hv, Hu, Htr in Hc.
  destruct (truthy v); simpl in Hc; injection Hc as <- <-;
    rewrite Hpl, Hpt, Ht; [by rewrite Hl | by injection Hl as <-].
Qed.

(** X15. The handshake reads two settings and no other: two settings stores
    that answer the language and the temperature unit alike give the same
    turn, whatever else they hold. *)
Theorem handshake_reads_two_settings (answers1 answers2 : string -> Settled jsval)
    (n : nat) (w : World) :
  answers1 "localization.language" = answers2 "localization.language" ->
  answers1 "localization.units.temperature" =
    answers2 "localization.units.temperature" ->
  settle MessageType pkg_version UserProfile answers1 n w =
  settle MessageType pkg_version UserProfile answers2 n w.
Proof.
  intros Hl Ht. destruct (jobs w !! n) as [cl|] eqn:E.
  - rewrite !(settle_run _ _ _ _ n cl w E).
    unfold settled_closure. by rewrite Hl, Ht.
  - unfold settle. by rewrite E.
Qed.

(** X16. Unregistering a plugin does not cancel its waiting handshake: the
    response is still sent on the socket of the request, to a plugin that
    is no longer in the registry. *)
Theorem unregister_does_not_cancel_handshake (answers : string -> Settled jsval)
    (msg : Message) (sock : nat) (w : World) :
  messageType msg = PLUGIN_REGISTER_REQUEST MessageType ->
  let w1 := exec_in (onMsg MessageType msg sock) w in
  let w2 := exec_in (unregisterPlugin (pluginId (data msg))) w1 in
  let w3 := exec_in (settle MessageType pkg_version UserProfile answers
                       (length (jobs w))) w2 in
  plugins w3 !! pluginId (data msg) = None /\
  exists j : json,
    responses (trace w3) = responses (trace w) ++ [(sock, Some j)] /\
    path ["data"; "pluginId"] j = JSON_stringify (id_value (pluginId (data msg))) /\
    jobs w3 = jobs w.
Proof.
  intros Hty w1 w2 w3.
  destruct (onMsg_register_jobs MessageType msg sock w Hty) as (Hj & Ht).
  fold w1 in Hj, Ht.
  assert (jobs w2 !! length (jobs w) = Some (new_closure msg sock)) as Hjob.
  { subst w2. simpl. rewrite Hj. by apply list_lookup_middle. }
  destruct (settle_response answers msg sock w2 (length (jobs w)) Hjob)
    as (lang & temp & j & l & t & _ & _ & _ & Hw3 & _ & _ & Hid & _).
  fold w3 in Hw3. rewrite Hw3. simpl. split; [apply lookup_delete_eq|].
  exists j. rewrite responses_app, Ht, trace_log_rcvd.
  destruct (logged_observations msg w) as (_ & -> & _).
  repeat split; [done|]. rewrite Hj.
  rewrite delete_take_drop, take_app_length, drop_ge by (rewrite length_app; simpl; lia).
  by rewrite app_nil_r.
Qed.

End HandshakeAnswers.

Lemma language_failure_discards_unit_witness :
  language_failing_settings "localization.units.temperature" =
    Fulfilled (JStr "degree fahrenheit") /\
  exists j : json,
    responses (trace (exec_in (settle sample_MessageType "1.1.0" sample_UserProfile
                                 language_failing_settings 0) world_with_abc))
      = responses (trace world_with_abc) ++ [(3%nat, Some j)] /\
    path ["data"; "preferences"; "units"; "temperature"] j =
      Some (JsStr "degree celsius").
Proof.
  split; [reflexivity|].
  destruct (language_failure_discards_unit sample_MessageType "1.1.0"
              sample_UserProfile language_failing_settings (register_request "abc") 3
              world_with_abc 0 eq_refl eq_refl) as (j & H1 & _ & H3).
  exists j. split; assumption.
Defined.

Lemma unit_failure_keeps_language_witness :
  exists j : json,
    responses (trace (exec_in (settle sample_MessageType "1.1.0" sample_UserProfile
                                 half_failing_settings 0) world_with_abc))
      = responses (trace world_with_abc) ++ [(3%nat, Some j)] /\
    path ["data"; "preferences"; "language"] j = Some (JsStr "fr") /\
    path ["data"; "preferences"; "units"; "temperature"] j =
      Some (JsStr "degree celsius").
Proof.
  apply (unit_failure_keeps_language sample_MessageType "1.1.0" sample_UserProfile
           half_failing_settings (register_request "abc") 3 world_with_abc 0
           (JStr "fr") eq_refl eq_refl eq_refl eq_refl).
Defined.

Lemma truthy_answers_are_sent_witness :
  exists j : json,
    responses (trace (exec_in (settle sample_MessageType "1.1.0" sample_UserProfile
                                 french_settings 0) world_with_abc))
      = responses (trace world_with_abc) ++ [(3%nat, Some j)] /\
    path ["data"; "preferences"; "units"; "temperature"] j =
      Some (JsStr "degree fahrenheit") /\
    path ["data"; "preferences"; "language"] j = Some (JsStr "fr").
Proof.
  apply (truthy_answers_are_sent sample_MessageType "1.1.0" sample_UserProfile
           french_settings (register_request "abc") 3 world_with_abc 0
           (JStr "fr") (JStr "degree fahrenheit") eq_refl eq_refl eq_refl eq_refl).
Defined.

Lemma handshake_reads_two_settings_witness :
  french_settings "ports.http" <> french_settings' "ports.http" /\
  settle sample_MessageType "1.1.0" sample_UserProfile french_settings 0 world_with_abc =
  settle sample_MessageType "1.1.0" sample_UserProfile french_settings' 0 world_with_abc.
Proof.
  split; [discriminate|].
  apply (handshake_reads_two_settings sample_MessageType "1.1.0" sample_UserProfile
           french_settings french_settings' 0 world_with_abc eq_refl eq_refl).
Defined.

Lemma unregister_does_not_cancel_handshake_witness :
  plugins (exec_in (settle sample_MessageType "1.1.0" sample_UserProfile
                      failing_settings 0)
             (exec_in (unregisterPlugin (Some "abc")) world_with_abc))
    !! Some "abc" = None /\
  exists j : json,
    responses (trace (exec_in (settle sample_MessageType "1.1.0" sample_UserProfile
                                 failing_settings 0)
                        (exec_in (unregisterPlugin (Some "abc")) world_with_abc)))
      = [(3%nat, Some j)].
Proof.
  destruct (unregister_does_not_cancel_handshake sample_MessageType "1.1.0"
              sample_UserProfile failing_settings (register_request "abc") 3
              (constructor 0 (Some true)) eq_refl) as (H1 & j & H2 & _).
  split; [exact H1|]. exists j. exact H2.
Defined.

(** X17. A register request that carries no plugin id is served like any
    other: a plugin is registered under the absent id and the response is
    sent, without a [pluginId] member.  But no later message reaches that
    plugin: a message without plugin id is dropped. *)
Theorem register_request_without_id (MT : MessageTypeT) (ver : string)
    (UP : UserProfileT) (answers : string -> Settled jsval) (msg : Message)
    (sock : nat) (w : World) (msg' : Message) (sock' : nat) :
  messageType msg = PLUGIN_REGISTER_REQUEST MT ->
  pluginId (data msg) = None ->
  messageType msg' <> PLUGIN_REGISTER_REQUEST MT ->
  pluginId (data msg') = None ->
  let w1 := exec_in (onMsg MT msg sock) w in
  is_Some (plugins w1 !! None) /\
  (exists j : json,
      responses (trace (exec_in (settle MT ver UP answers (length (jobs w))) w1))
        = responses (trace w) ++ [(sock, Some j)] /\
      path ["data"; "pluginId"] j = None /\
      path ["data"; "gatewayVersion"] j = Some (JsStr ver)) /\
  onMsg MT msg' sock' w1 = log_rcvd msg' w1.
Proof.
  intros Hty Hid Hty' Hid' w1.
  destruct (onMsg_register_jobs MT msg sock w Hty) as (Hj & Ht). fold w1 in Hj, Ht.
  split; [|split].
  - subst w1. rewrite <- Hid.
    destruct (plugins w !! pluginId (data msg)) as [r|] eqn:E.
    + rewrite (onMsg_register_known MT msg sock w r Hty E). simpl. eauto.
    + rewrite (onMsg_register_fresh MT msg sock w Hty E). simpl.
      rewrite lookup_insert_eq. eauto.
  - assert (jobs w1 !! length (jobs w) = Some (new_closure msg sock)) as Hjob.
    { rewrite Hj. by apply list_lookup_middle. }
    destruct (settle_response MT ver UP answers msg sock w1 (length (jobs w)) Hjob)
      as (lang & temp & j & l & t & _ & _ & _ & -> & _ & _ & Hp & Hv).
    exists j. cbn [trace]. rewrite responses_app, Ht, trace_log_rcvd.
    destruct (logged_observations msg w) as (_ & -> & _).
    rewrite Hid in Hp. done.
  - apply onMsg_drop; [done|]. left. by rewrite Hid'.
Qed.

Lemma register_request_without_id_witness :
  is_Some (plugins (exec_in (onMsg sample_MessageType anonymous_register_request 6)
                      (constructor 0 None)) !! None) /\
  exists j : json,
    responses (trace (exec_in (settle sample_MessageType "1.1.0" sample_UserProfile
                                 failing_settings 0)
                        (exec_in (onMsg sample_MessageType anonymous_register_request 6)
                           (constructor 0 None))))
      = [(6%nat, Some j)] /\
    path ["data"; "pluginId"] j = None.
Proof.
  destruct (register_request_without_id sample_MessageType "1.1.0" sample_UserProfile
              failing_settings anonymous_register_request 6 (constructor 0 None)
              (mkMessage 8199 (mkData None [])) 6)
    as (H1 & (j & H2 & H3 & _) & _);
    [reflexivity | reflexivity | discriminate | reflexivity |].
  split; [exact H1|]. exists j. split; assumption.
Defined.

(** * Properties of the collection of directories *)

(** ** Moving one directory *)

Lemma num_lt_irrefl a : num_lt a a = false.
Proof. destruct a; simpl; [apply Z.ltb_irrefl | done]. Qed.

Lemma moved_self i x : moved (layoutIndex x) i x = x.
Proof. unfold moved. by rewrite num_lt_irrefl, andb_false_r. Qed.

Lemma move_one_moved directory i st d dir x :
  st !! directory = Some dir -> st !! d = Some x ->
  move_one directory i st d = <[d := moved (layoutIndex dir) i x]> st.
Proof.
  intros Hdir Hx. unfold move_one, moved. rewrite Hdir, Hx.
  repeat case_match; try done. by rewrite list_insert_id.
Qed.

Lemma move_loop directory i vs st dir :
  NoDup vs ->
  st !! directory = Some dir ->
  (forall d, d ∈ vs -> is_Some (st !! d)) ->
  forall r, foldl (move_one directory i) st vs !! r =
            if decide (r ∈ vs) then moved (layoutIndex dir) i <$> st !! r
            else st !! r.
Proof.
  revert st. induction vs as [|d vs IH]; intros st Hnd Hdir Hall r.
  { simpl. destruct (decide (r ∈ [])) as [H|]; [by apply elem_of_nil in H | done]. }
  apply NoDup_cons in Hnd as [Hd Hnd].
  destruct (Hall d) as [x Hx]; [apply list_elem_of_here|].
  simpl. rewrite (move_one_moved directory i st d dir x Hdir Hx).
  assert (<[d := moved (layoutIndex dir) i x]> st !! directory = Some dir) as Hdir'.
  { destruct (decide (d = directory)) as [->|Hne].
    - assert (x = dir) as -> by congruence. rewrite moved_self.
      by rewrite list_insert_id.
    - by rewrite list_lookup_insert_ne. }
  rewrite (IH _ Hnd Hdir').
  2:{ intros d' Hd'. destruct (decide (d = d')) as [->|Hne]; [done|].
      rewrite list_lookup_insert_ne by done. apply Hall. by apply list_elem_of_further. }
  destruct (decide (r = d)) as [->|Hne].
  - rewrite decide_False by done. rewrite decide_True by apply list_elem_of_here.
    rewrite list_lookup_insert_eq by (by eapply lookup_lt_Some). by rewrite Hx.
  - rewrite list_lookup_insert_ne by done.
    destruct (decide (r ∈ vs)) as [Hin|Hnin].
    + by rewrite decide_True by (by apply list_elem_of_further).
    + rewrite decide_False; [done|].
      intros H. by apply elem_of_cons in H as [?|?].
Qed.

Lemma NoDup_fmap_elem_inj {A B} (f : A -> B) (l : list A) x y :
  NoDup (f <$> l) -> x ∈ l -> y ∈ l -> f x = f y -> x = y.
Proof.
  induction l as [|a l IH]; intros Hnd Hx Hy Hf; [by apply elem_of_nil in Hx|].
  rewrite fmap_cons in Hnd. apply NoDup_cons in Hnd as [Ha Hnd].
  apply elem_of_cons in Hx as [->|Hx]; apply elem_of_cons in Hy as [->|Hy]; auto.
  - exfalso. apply Ha. rewrite Hf. by apply list_elem_of_fmap_2.
  - exfalso. apply Ha. rewrite <- Hf. by apply list_elem_of_fmap_2.
Qed.

Lemma Map_get_values {A} (k : string) (m : list (string * A)) (x : A) :
  Map_get k m = Some x -> x ∈ Map_values m.
Proof.
  unfold Map_values. induction m as [|[k' y] m IH]; [done|]. simpl.
  destruct (String.eqb k k').
  - intros [= ->]. apply list_elem_of_here.
  - intros H. apply list_elem_of_further. by apply IH.
Qed.

Lemma Map_values_length {A} (m : list (string * A)) :
  length (Map_values m) = length m.
Proof. unfold Map_values. apply length_fmap. Qed.

Lemma layout_elem w r :
  r ∈ Map_values (directories w) ->
  (layoutIndex <$> dir_store w !! r) ∈ layout w.
Proof.
  intros H. unfold layout.
  by apply (list_elem_of_fmap_2 (fun r => layoutIndex <$> dir_store w !! r)).
Qed.

(** What the invariant says. *)
Lemma layout_ok_spec w :
  layout_ok w = true <->
  NoDup (directories w).*1 /\ NoDup (layout w) /\
  forall r, r ∈ Map_values (directories w) ->
            exists x z, dir_store w !! r = Some x /\ layoutIndex x = Fin z /\
                        (0 <= z < Z.of_nat (length (directories w)))%Z.
Proof.
  unfold layout_ok. rewrite !andb_true_iff, !bool_decide_eq_true, forallb_forall.
  split.
  - intros ((Hk & Hl) & Hr). do 2 (split; [done|]). intros r Hin.
    specialize (Hr (layoutIndex <$> dir_store w !! r)).
    unfold in_layout_range in Hr.
    destruct (dir_store w !! r) as [x|] eqn:E; simpl in Hr.
    + destruct (layoutIndex x) as [z|] eqn:Ez.
      * exists x, z. do 2 (split; [done|]).
        assert ((0 <=? z)%Z && (z <? Z.of_nat (length (directories w)))%Z = true) as H.
        { apply Hr. apply list_elem_of_In. rewrite <- Ez.
          change (Some (layoutIndex x)) with (layoutIndex <$> Some x).
          rewrite <- E. by apply layout_elem. }
        apply andb_true_iff in H as [H1 H2]. lia.
      * exfalso. assert (false = true); [|done]. apply Hr. apply list_elem_of_In.
        rewrite <- Ez. change (Some (layoutIndex x)) with (layoutIndex <$> Some x).
        rewrite <- E. by apply layout_elem.
    + exfalso. assert (false = true); [|done]. apply Hr. apply list_elem_of_In.
      change (@None num) with (layoutIndex <$> @None Directory).
      rewrite <- E. by apply layout_elem.
  - intros (Hk & Hnd & Hr). split; [done|]. intros o Ho.
    apply list_elem_of_In in Ho. unfold layout in Ho.
    apply list_elem_of_fmap in Ho as (r & -> & Hin).
    destruct (Hr r Hin) as (x & z & -> & Hz & Hrange). simpl. rewrite Hz.
    apply andb_true_iff. lia.
Qed.

Lemma layout_ok_NoDup_values w :
  layout_ok w = true -> NoDup (Map_values (directories w)).
Proof.
  intros (_ & Hnd & _)%layout_ok_spec. unfold layout in Hnd.
  by apply NoDup_fmap_1 in Hnd.
Qed.

Lemma layout_ok_index_inj w r1 r2 :
  layout_ok w = true ->
  r1 ∈ Map_values (directories w) -> r2 ∈ Map_values (directories w) ->
  layoutIndex <$> dir_store w !! r1 = layoutIndex <$> dir_store w !! r2 ->
  r1 = r2.
Proof.
  intros (_ & Hnd & _)%layout_ok_spec H1 H2 Heq. unfold layout in Hnd.
  by eapply (NoDup_fmap_elem_inj _ _ r1 r2 Hnd).
Qed.

(** ** Arithmetic of the move *)

Ltac case_bools :=
  repeat match goal with
         | |- context [(?x <? ?y)%Z] => destruct (Z.ltb_spec x y)
         | |- context [(?x <=? ?y)%Z] => destruct (Z.leb_spec x y)
         | |- context [(?x =? ?y)%Z] => destruct (Z.eqb_spec x y)
         | _ : context [(?x <? ?y)%Z] |- _ => destruct (Z.ltb_spec x y)
         | _ : context [(?x <=? ?y)%Z] |- _ => destruct (Z.leb_spec x y)
         | _ : context [(?x =? ?y)%Z] |- _ => destruct (Z.eqb_spec x y)
         end; simpl in *.

Lemma moved_index_range a i z n :
  (0 <= a < n)%Z -> (0 <= i < n)%Z -> (0 <= z < n)%Z ->
  (0 <= moved_index a i z < n)%Z.
Proof. intros. unfold moved_index. case_bools; lia. Qed.

Lemma moved_index_inj a i z1 z2 :
  moved_index a i z1 = moved_index a i z2 -> z1 = z2.
Proof. unfold moved_index. case_bools; lia. Qed.

Lemma moved_index_order a i z1 z2 :
  z1 <> a -> z2 <> a ->
  ((z1 < z2)%Z <-> (moved_index a i z1 < moved_index a i z2)%Z).
Proof. intros. unfold moved_index. case_bools; lia. Qed.

Lemma moved_index_back a i z :
  moved_index i a (moved_index a i z) = z.
Proof. unfold moved_index. case_bools; lia. Qed.

Lemma moved_index_self a i : moved_index a i a = i.
Proof. unfold moved_index. by rewrite Z.eqb_refl. Qed.

Lemma moved_layoutIndex a i x z :
  layoutIndex x = Fin z -> z <> a ->
  layoutIndex (moved (Fin a) i x) = Fin (moved_index a i z).
Proof.
  intros Hz Hne. unfold moved, moved_index. rewrite Hz. simpl.
  case_bools; simpl; try done; try lia; f_equal; lia.
Qed.

Lemma clamp_index_range n index :
  (0 < n)%nat -> (0 <= clamp_index n index < Z.of_nat n)%Z.
Proof. intros. unfold clamp_index. destruct index; lia. Qed.

Lemma moved_fields a i x :
  dir_id (moved a i x) = dir_id x /\ dir_href (moved a i x) = dir_href x /\
  dir_title (moved a i x) = dir_title x.
Proof. unfold moved. by repeat case_match. Qed.

(** What the move does to the objects: every directory of the collection
    gets the index [moved_index] gives it and keeps its other fields;
    objects outside the collection are not touched. *)
Lemma move_store directory index emitModified w :
  layout_ok w = true ->
  directory ∈ Map_values (directories w) ->
  let w' := setDirectoryLayoutIndex directory index emitModified w in
  let i := clamp_index (length (directories w)) index in
  exists a,
    layoutIndex <$> dir_store w !! directory = Some (Fin a) /\
    (0 <= a < Z.of_nat (length (directories w)))%Z /\
    (0 <= i < Z.of_nat (length (directories w)))%Z /\
    (forall r x z,
        r ∈ Map_values (directories w) ->
        dir_store w !! r = Some x -> layoutIndex x = Fin z ->
        exists x', dir_store w' !! r = Some x' /\
                   layoutIndex x' = Fin (moved_index a i z) /\
                   dir_id x' = dir_id x /\ dir_href x' = dir_href x /\
                   dir_title x' = dir_title x) /\
    (forall r, r ∉ Map_values (directories w) ->
               dir_store w' !! r = dir_store w !! r).
Proof.
  intros Hok Hdir w' i.
  pose proof (layout_ok_NoDup_values w Hok) as Hnd.
  pose proof Hok as (_ & _ & Hrange)%layout_ok_spec.
  destruct (Hrange directory Hdir) as (x0 & a & Hx0 & Ha & Hra).
  assert (0 <= i < Z.of_nat (length (directories w)))%Z as Hri.
  { subst i. apply clamp_index_range. lia. }
  pose proof (move_loop directory i (Map_values (directories w)) (dir_store w) x0
                Hnd Hx0) as Hloop.
  assert (forall d, d ∈ Map_values (directories w) -> is_Some (dir_store w !! d)) as Hall.
  { intros d Hd. destruct (Hrange d Hd) as (x & _ & -> & _). eauto. }
  specialize (Hloop Hall).
  exists a. split; [by rewrite Hx0; simpl; rewrite Ha|]. do 2 (split; [done|]).
  subst w'. unfold setDirectoryLayoutIndex. cbn [dir_store].
  rewrite Map_values_length. fold i. split.
  - intros r x z Hr Hx Hz.
    destruct (decide (directory = r)) as [<-|Hne].
    + rewrite list_lookup_alter_eq, Hloop, decide_True by done. rewrite Hx. simpl.
      assert (x = x0) as -> by congruence. rewrite moved_self.
      eexists. split; [done|]. simpl.
      assert (z = a) as -> by congruence. by rewrite moved_index_self.
    + rewrite list_lookup_alter_ne, Hloop, decide_True by done.
      rewrite Hx. simpl. exists (moved (layoutIndex x0) i x). split; [done|].
      rewrite Ha. split; [|apply moved_fields].
      apply moved_layoutIndex; [done|]. intros ->. apply Hne.
      apply (layout_ok_index_inj w directory r Hok Hdir Hr).
      rewrite Hx0, Hx. simpl. congruence.
  - intros r Hr. rewrite list_lookup_alter_ne by (intros ->; done).
    by rewrite Hloop, decide_False.
Qed.

Lemma move_layout_ok directory index emitModified w :
  layout_ok w = true ->
  directory ∈ Map_values (directories w) ->
  layout_ok (setDirectoryLayoutIndex directory index emitModified w) = true /\
  layoutIndex <$> dir_store (setDirectoryLayoutIndex directory index emitModified w)
                    !! directory =
    Some (Fin (clamp_index (length (directories w)) index)).
Proof.
  intros Hok Hdir. set (w' := setDirectoryLayoutIndex directory index emitModified w).
  destruct (move_store directory index emitModified w Hok Hdir)
    as (a & Ha & Hra & Hri & Hin & _). fold w' in Hin.
  pose proof Hok as (Hk & Hl & Hrange)%layout_ok_spec.
  assert (directories w' = directories w) as Hdirs by done.
  split.
  - apply layout_ok_spec. rewrite Hdirs. split; [done|]. split.
    + unfold layout. rewrite Hdirs. apply NoDup_fmap_2_strong.
      2:{ by apply layout_ok_NoDup_values. }
      intros r1 r2 Hr1 Hr2 Heq.
      destruct (Hrange r1 Hr1) as (x1 & z1 & Hx1 & Hz1 & _).
      destruct (Hrange r2 Hr2) as (x2 & z2 & Hx2 & Hz2 & _).
      destruct (Hin r1 x1 z1 Hr1 Hx1 Hz1) as (x1' & Hx1' & Hz1' & _).
      destruct (Hin r2 x2 z2 Hr2 Hx2 Hz2) as (x2' & Hx2' & Hz2' & _).
      rewrite Hx1', Hx2' in Heq. simpl in Heq. rewrite Hz1', Hz2' in Heq.
      injection Heq as Heq. apply moved_index_inj in Heq. subst z2.
      apply (layout_ok_index_inj w r1 r2 Hok Hr1 Hr2).
      rewrite Hx1, Hx2. simpl. congruence.
    + intros r Hr. destruct (Hrange r Hr) as (x & z & Hx & Hz & Hrz).
      destruct (Hin r x z Hr Hx Hz) as (x' & Hx' & Hz' & _).
      exists x', (moved_index a (clamp_index (length (directories w)) index) z).
      do 2 (split; [done|]). by apply moved_index_range.
  - destruct (Hrange directory Hdir) as (x & z & Hx & Hz & _).
    destruct (Hin directory x z Hdir Hx Hz) as (x' & -> & Hz' & _). simpl.
    rewrite Hx in Ha. simpl in Ha. rewrite Hz', Hz in *. injection Ha as ->.
    by rewrite moved_index_self.
Qed.

(** X18. Moving a directory of the collection to a requested index that is
    an integer or [Infinity] keeps the layout a layout: the indices stay
    [0 .. n-1], each once.  The directory lands on the requested index cut
    to that range (a negative index is 0, an index past the end and
    [Infinity] are the last place), and no id is added, dropped or
    re-pointed.  (A requested index with a fractional part, or [NaN], is
    not covered: [index] ranges over [num].) *)
Theorem setDirectoryLayoutIndex_keeps_layout (id : string) (directory : nat)
    (index : num) (emitModified : bool) (w : Dirs) :
  layout_ok w = true ->
  Map_get id (directories w) = Some directory ->
  let w' := setDirectoryLayoutIndex directory index emitModified w in
  layout_ok w' = true /\
  directories w' = directories w /\
  layoutIndex <$> dir_store w' !! directory =
    Some (Fin (clamp_index (length (directories w)) index)) /\
  (0 <= clamp_index (length (directories w)) index
     < Z.of_nat (length (directories w)))%Z.
Proof.
  intros Hok Hget w'. apply Map_get_values in Hget as Hdir.
  destruct (move_layout_ok directory index emitModified w Hok Hdir) as (H1 & H2).
  do 3 (split; [done|]). apply clamp_index_range.
  rewrite <- Map_values_length. destruct (Map_values (directories w)).
  - by apply elem_of_nil in Hdir.
  - simpl. lia.
Qed.

(** The attic, last of three, is moved to the front. *)
Lemma setDirectoryLayoutIndex_keeps_layout_witness :
  layout_ok sample_dirs = true /\
  Map_get "attic" (directories sample_dirs) = Some 2%nat /\
  layout_ok (setDirectoryLayoutIndex 2 (Fin (-5)) true sample_dirs) = true /\
  layoutIndex <$> dir_store (setDirectoryLayoutIndex 2 (Fin (-5)) true sample_dirs)
                    !! 2%nat = Some (Fin 0).
Proof.
  split; [reflexivity|]. split; [reflexivity|].
  destruct (setDirectoryLayoutIndex_keeps_layout "attic" 2 (Fin (-5)) true sample_dirs
              eq_refl eq_refl) as (H1 & _ & H3 & _).
  split; assumption.
Defined.

Lemma moved_index_near a i z :
  z <> a -> (z - 1 <= moved_index a i z <= z + 1)%Z.
Proof. intros. unfold moved_index. case_bools; lia. Qed.

Lemma clamp_index_in_range n a :
  (0 <= a < Z.of_nat n)%Z -> clamp_index n (Fin a) = a.
Proof. intros. unfold clamp_index. lia. Qed.

Lemma Directory_eq (x y : Directory) :
  dir_id x = dir_id y -> dir_href x = dir_href y -> dir_title x = dir_title y ->
  layoutIndex x = layoutIndex y -> x = y.
Proof. destruct x, y. simpl. by intros -> -> -> ->. Qed.

(** X19. A move leaves the other directories in the order they were in:
    each of them keeps its layout index or shifts by one place, and of any
    two of them the one that came first still comes first. *)
Theorem setDirectoryLayoutIndex_keeps_order (id id1 id2 : string)
    (directory r1 r2 : nat) (index : num) (emitModified : bool) (w : Dirs)
    (z1 z2 : Z) :
  layout_ok w = true ->
  Map_get id (directories w) = Some directory ->
  Map_get id1 (directories w) = Some r1 ->
  Map_get id2 (directories w) = Some r2 ->
  r1 <> directory -> r2 <> directory ->
  layoutIndex <$> dir_store w !! r1 = Some (Fin z1) ->
  layoutIndex <$> dir_store w !! r2 = Some (Fin z2) ->
  let w' := setDirectoryLayoutIndex directory index emitModified w in
  exists z1' z2' : Z,
    layoutIndex <$> dir_store w' !! r1 = Some (Fin z1') /\
    layoutIndex <$> dir_store w' !! r2 = Some (Fin z2') /\
    ((z1 < z2)%Z <-> (z1' < z2')%Z) /\
    (z1 - 1 <= z1' <= z1 + 1)%Z /\ (z2 - 1 <= z2' <= z2 + 1)%Z.
Proof.
  intros Hok Hget Hget1 Hget2 Hne1 Hne2 Hz1 Hz2 w'.
  apply Map_get_values in Hget as Hdir.
  apply Map_get_values in Hget1 as Hr1. apply Map_get_values in Hget2 as Hr2.
  destruct (move_store directory index emitModified w Hok Hdir)
    as (a & Ha & _ & _ & Hin & _). fold w' in Hin.
  destruct (dir_store w !! r1) as [x1|] eqn:Hx1; [|done].
  destruct (dir_store w !! r2) as [x2|] eqn:Hx2; [|done].
  simpl in Hz1, Hz2. injection Hz1 as Hz1. injection Hz2 as Hz2.
  destruct (Hin r1 x1 z1 Hr1 Hx1 Hz1) as (x1' & -> & Hz1' & _).
  destruct (Hin r2 x2 z2 Hr2 Hx2 Hz2) as (x2' & -> & Hz2' & _).
  assert (z1 <> a) as Hza1.
  { intros ->. apply Hne1. symmetry.
    apply (layout_ok_index_inj w directory r1 Hok Hdir Hr1).
    rewrite Ha, Hx1. simpl. by rewrite Hz1. }
  assert (z2 <> a) as Hza2.
  { intros ->. apply Hne2. symmetry.
    apply (layout_ok_index_inj w directory r2 Hok Hdir Hr2).
    rewrite Ha, Hx2. simpl. by rewrite Hz2. }
  eexists _, _. simpl. rewrite Hz1', Hz2'. do 2 (split; [done|]).
  split; [by apply moved_index_order|].
  split; by apply moved_index_near.
Qed.

(** The attic goes to the front: kitchen and garage move one place down
    and stay in their order. *)
Lemma setDirectoryLayoutIndex_keeps_order_witness :
  exists z1' z2' : Z,
    layoutIndex <$> dir_store (setDirectoryLayoutIndex 2 (Fin 0) true sample_dirs)
                      !! 0%nat = Some (Fin z1') /\
    layoutIndex <$> dir_store (setDirectoryLayoutIndex 2 (Fin 0) true sample_dirs)
                      !! 1%nat = Some (Fin z2') /\
    ((0 < 1)%Z <-> (z1' < z2')%Z).
Proof.
  destruct (setDirectoryLayoutIndex_keeps_order "attic" "kitchen" "garage" 2 0 1
              (Fin 0) true sample_dirs 0 1)
    as (z1' & z2' & H1 & H2 & H3 & _);
    [reflexivity | reflexivity | reflexivity | reflexivity | lia | lia
     | reflexivity | reflexivity |].
  exists z1', z2'. repeat split; try assumption; apply H3.
Defined.

(** X20. Moving a directory and then moving it back to the index it had
    undoes the move: every directory object is as it was. *)
Theorem setDirectoryLayoutIndex_back_restores (id : string) (directory : nat)
    (index : num) (e1 e2 : bool) (w : Dirs) (a : Z) :
  layout_ok w = true ->
  Map_get id (directories w) = Some directory ->
  layoutIndex <$> dir_store w !! directory = Some (Fin a) ->
  dir_store (setDirectoryLayoutIndex directory (Fin a) e2
               (setDirectoryLayoutIndex directory index e1 w)) = dir_store w.
Proof.
  intros Hok Hget Ha. apply Map_get_values in Hget as Hdir.
  set (w1 := setDirectoryLayoutIndex directory index e1 w).
  set (i := clamp_index (length (directories w)) index).
  destruct (move_store directory index e1 w Hok Hdir)
    as (a0 & Ha0 & Hra & Hri & Hin & Hout). fold w1 i in Hin, Hout, Hri.
  assert (a0 = a) as -> by congruence. clear Ha0.
  destruct (move_layout_ok directory index e1 w Hok Hdir) as (Hok1 & Hi1).
  fold w1 i in Hok1, Hi1.
  assert (directories w1 = directories w) as Hdirs by done.
  assert (directory ∈ Map_values (directories w1)) as Hdir1 by (by rewrite Hdirs).
  destruct (move_store directory (Fin a) e2 w1 Hok1 Hdir1)
    as (i0 & Hi0 & _ & _ & Hin2 & Hout2).
  assert (i0 = i) as -> by congruence. clear Hi0.
  rewrite Hdirs in Hin2, Hout2.
  rewrite (clamp_index_in_range _ a Hra) in Hin2.
  pose proof Hok as (_ & _ & Hrange)%layout_ok_spec.
  apply list_eq. intros r.
  destruct (decide (r ∈ Map_values (directories w))) as [Hr|Hr].
  - destruct (Hrange r Hr) as (x & z & Hx & Hz & _).
    destruct (Hin r x z Hr Hx Hz) as (x' & Hx' & Hz' & ? & ? & ?).
    destruct (Hin2 r x' _ Hr Hx' Hz') as (x'' & -> & Hz'' & ? & ? & ?).
    rewrite Hx. f_equal. apply Directory_eq; try congruence.
    by rewrite Hz'', moved_index_back.
  - by rewrite Hout2, Hout.
Qed.

Lemma setDirectoryLayoutIndex_back_restores_witness :
  dir_store (setDirectoryLayoutIndex 2 (Fin 2) false
               (setDirectoryLayoutIndex 2 (Fin 0) true sample_dirs))
  = dir_store sample_dirs.
Proof.
  apply (setDirectoryLayoutIndex_back_restores "attic" 2 (Fin 0) true false
           sample_dirs 2 eq_refl eq_refl eq_refl).
Defined.

(** ** Creating and removing *)

Lemma Map_get_None_keys {A} (k : string) (m : list (string * A)) :
  Map_get k m = None <-> k ∉ m.*1.
Proof.
  induction m as [|[k' y] m IH]; simpl.
  - split; [intros _ H; by apply elem_of_nil in H | done].
  - rewrite not_elem_of_cons. destruct (String.eqb_spec k k') as [->|Hne].
    + split; [done | by intros [? _]].
    + rewrite IH. simpl. tauto.
Qed.

Lemma Map_set_new {A} (k : string) (x : A) (m : list (string * A)) :
  Map_get k m = None -> Map_set k x m = m ++ [(k, x)].
Proof.
  induction m as [|[k' y] m IH]; simpl; [done|].
  destruct (String.eqb k k'); [done|]. intros H. by rewrite IH.
Qed.

Lemma Map_get_app_new {A} (k k' : string) (x : A) (m : list (string * A)) :
  Map_get k' (m ++ [(k, x)]) =
    match Map_get k' m with
    | Some y => Some y
    | None => if String.eqb k' k then Some x else None
    end.
Proof.
  induction m as [|[k0 y] m IH]; simpl; [done|].
  by destruct (String.eqb k' k0).
Qed.

Lemma moved_last a n x z :
  layoutIndex x = Fin z -> (0 <= z < n)%Z -> num_le (Fin (n - 1)) a = true ->
  moved a n x = x.
Proof.
  intros Hz Hr Ha. unfold moved. rewrite Hz.
  assert (num_lt a (Fin z) = false) as ->.
  { destruct a as [y|]; simpl in *; [|done]. apply Z.ltb_ge.
    apply Z.leb_le in Ha. lia. }
  simpl. assert ((n <=? z)%Z = false) as -> by (apply Z.leb_gt; lia). done.
Qed.

(** The move that [createDirectory] makes for the directory it has just
    entered: nothing moves, the new directory gets the last index. *)
Lemma move_new_last d w :
  layout_ok w = true ->
  Map_get (dir_id d) (directories w) = None ->
  num_le (Fin (Z.of_nat (length (directories w)) - 1)) (layoutIndex d) = true ->
  setDirectoryLayoutIndex (length (dir_store w)) Infinity true
    (mkDirs (Map_set (dir_id d) (length (dir_store w)) (directories w))
       (dir_store w ++ [d]) (getDirectoriesPromise w) (dir_events w)) =
  mkDirs (directories w ++ [(dir_id d, length (dir_store w))])
    (dir_store w ++ [setLayoutIndex (Fin (Z.of_nat (length (directories w)))) d])
    (getDirectoriesPromise w) (dir_events w ++ [EmitLayoutModified]).
Proof.
  intros Hok Hnew Hidx.
  pose proof Hok as (_ & _ & Hrange)%layout_ok_spec.
  pose proof (layout_ok_NoDup_values w Hok) as Hnd.
  unfold setDirectoryLayoutIndex. cbn [directories dir_store getDirectoriesPromise
                                        dir_events].
  rewrite (Map_set_new _ _ _ Hnew). unfold Map_values in *.
  rewrite fmap_app, length_app, length_fmap. simpl.
  replace (Z.of_nat (length (directories w) + 1) - 1)%Z
    with (Z.of_nat (length (directories w))) by lia.
  f_equal.
  set (r := length (dir_store w)). set (n := Z.of_nat (length (directories w))).
  assert (r ∉ (directories w).*2) as Hr.
  { intros Hin. destruct (Hrange r Hin) as (x & _ & Hx & _).
    apply lookup_lt_Some in Hx. subst r. lia. }
  assert (foldl (move_one r n) (dir_store w ++ [d]) ((directories w).*2 ++ [r]) =
          dir_store w ++ [d]) as ->.
  { apply list_eq. intros r'.
    rewrite (move_loop r n _ (dir_store w ++ [d]) d).
    - case_decide as Hin; [|done].
      apply elem_of_app in Hin as [Hin|Hin].
      + destruct (Hrange r' Hin) as (x & z & Hx & Hz & Hrz).
        rewrite lookup_app_l by (by eapply lookup_lt_Some). rewrite Hx. simpl.
        f_equal. by apply (moved_last _ _ _ z).
      + apply list_elem_of_singleton in Hin. subst r'.
        rewrite list_lookup_middle by done. simpl. by rewrite moved_self.
    - apply NoDup_app. split; [done|]. split; [|apply NoDup_singleton].
      intros x Hx Hx'. apply list_elem_of_singleton in Hx'. by subst x.
    - by apply list_lookup_middle.
    - intros d' [Hin|Hin]%elem_of_app.
      + destruct (Hrange d' Hin) as (x & _ & Hx & _).
        rewrite lookup_app_l by (by eapply lookup_lt_Some). eauto.
      + apply list_elem_of_singleton in Hin. subst d'.
        rewrite list_lookup_middle by done. eauto. }
  subst r. rewrite <- (Nat.add_0_r (length (dir_store w))). by rewrite alter_app_r.
Qed.

Lemma createDirectory_world d desc w :
  layout_ok w = true ->
  Map_get (dir_id d) (directories w) = None ->
  num_le (Fin (Z.of_nat (length (directories w)) - 1)) (layoutIndex d) = true ->
  createDirectory d (Fulfilled desc) w =
    (Fulfilled desc,
     mkDirs (directories w ++ [(dir_id d, length (dir_store w))])
       (dir_store w ++ [setLayoutIndex (Fin (Z.of_nat (length (directories w)))) d])
       (getDirectoriesPromise w)
       (dir_events w ++ [EmitLayoutModified; EmitDirectoryAdded (length (dir_store w))])).
Proof.
  intros Hok Hnew Hidx. unfold createDirectory.
  rewrite (move_new_last d w Hok Hnew Hidx). simpl. by rewrite <- app_assoc.
Qed.

Lemma appended_layout_ok w k x evs :
  layout_ok w = true ->
  Map_get k (directories w) = None ->
  layoutIndex x = Fin (Z.of_nat (length (directories w))) ->
  layout_ok (mkDirs (directories w ++ [(k, length (dir_store w))])
               (dir_store w ++ [x]) (getDirectoriesPromise w) evs) = true.
Proof.
  intros Hok Hnew Hx.
  pose proof Hok as (Hk & _ & Hrange)%layout_ok_spec.
  pose proof (layout_ok_NoDup_values w Hok) as Hnd.
  assert (length (dir_store w) ∉ Map_values (directories w)) as Hfresh.
  { intros Hin. destruct (Hrange _ Hin) as (y & _ & Hy & _).
    apply lookup_lt_Some in Hy. lia. }
  assert (forall r, r ∈ Map_values (directories w ++ [(k, length (dir_store w))]) ->
            (r ∈ Map_values (directories w) /\
             exists y z, dir_store w !! r = Some y /\
                         (dir_store w ++ [x]) !! r = Some y /\
                         layoutIndex y = Fin z /\
                         (0 <= z < Z.of_nat (length (directories w)))%Z) \/
            (r = length (dir_store w) /\ (dir_store w ++ [x]) !! r = Some x)) as Hcases.
  { intros r Hr. unfold Map_values in Hr. rewrite fmap_app in Hr.
    apply elem_of_app in Hr as [Hr|Hr].
    - left. split; [done|]. destruct (Hrange r Hr) as (y & z & Hy & Hz & Hrz).
      exists y, z. rewrite lookup_app_l by (by eapply lookup_lt_Some). done.
    - right. apply list_elem_of_singleton in Hr. simpl in Hr. subst r.
      split; [done|]. by apply list_lookup_middle. }
  apply layout_ok_spec. cbn [directories dir_store]. split; [|split].
  - rewrite fmap_app. apply NoDup_app. split; [done|].
    split; [|apply NoDup_singleton].
    intros k' Hk' Hk''. apply list_elem_of_singleton in Hk''. simpl in Hk''. subst k'.
    by apply Map_get_None_keys in Hnew.
  - unfold layout. cbn [directories dir_store]. apply NoDup_fmap_2_strong.
    2:{ unfold Map_values. rewrite fmap_app. apply NoDup_app. split; [done|].
        split; [|apply NoDup_singleton].
        intros r Hr Hr'. apply list_elem_of_singleton in Hr'. simpl in Hr'. by subst r. }
    intros r1 r2 Hr1 Hr2 Heq.
    destruct (Hcases r1 Hr1) as [(Hin1 & y1 & z1 & Hy1 & Hy1' & Hz1 & Hrz1)|[-> Hx1]];
      destruct (Hcases r2 Hr2) as [(Hin2 & y2 & z2 & Hy2 & Hy2' & Hz2 & Hrz2)|[-> Hx2]];
      try done.
    + rewrite Hy1', Hy2' in Heq. simpl in Heq.
      apply (layout_ok_index_inj w r1 r2 Hok Hin1 Hin2). by rewrite Hy1, Hy2.
    + rewrite Hy1', Hx2 in Heq. simpl in Heq. rewrite Hz1, Hx in Heq.
      injection Heq as Heq. lia.
    + rewrite Hx1, Hy2' in Heq. simpl in Heq. rewrite Hz2, Hx in Heq.
      injection Heq as Heq. lia.
  - intros r Hr. rewrite length_app. simpl.
    destruct (Hcases r Hr) as [(Hin & y & z & Hy & Hy' & Hz & Hrz)|[-> Hx']].
    + exists y, z. do 2 (split; [done|]). lia.
    + exists x, (Z.of_nat (length (directories w))). do 2 (split; [done|]). lia.
Qed.

(** X21. A directory that is created goes last: it is entered under its
    id, gets the layout index after the last one, no other directory
    changes, and the collection emits the layout change and then the
    addition.  For this the index the new object starts with must not be
    below the last index in use; [Infinity] is such a start. *)
Theorem createDirectory_appends (d : Directory) (desc : jsval) (w : Dirs) :
  layout_ok w = true ->
  Map_get (dir_id d) (directories w) = None ->
  num_le (Fin (Z.of_nat (length (directories w)) - 1)) (layoutIndex d) = true ->
  let r := length (dir_store w) in
  let w' := (createDirectory d (Fulfilled desc) w).2 in
  (createDirectory d (Fulfilled desc) w).1 = Fulfilled desc /\
  directories w' = directories w ++ [(dir_id d, r)] /\
  dir_store w' =
    dir_store w ++ [setLayoutIndex (Fin (Z.of_nat (length (directories w)))) d] /\
  dir_events w' = dir_events w ++ [EmitLayoutModified; EmitDirectoryAdded r] /\
  layout_ok w' = true /\
  getDirectory (dir_id d) w' = Fulfilled r.
Proof.
  intros Hok Hnew Hidx r w'. subst w'.
  rewrite (createDirectory_world d desc w Hok Hnew Hidx). cbn [fst snd].
  do 4 (split; [done|]). split.
  - by apply appended_layout_ok.
  - unfold getDirectory. cbn [directories].
    by rewrite Map_get_app_new, Hnew, String.eqb_refl.
Qed.

Lemma createDirectory_appends_witness :
  layout_ok sample_dirs = true /\
  Map_get "cellar" (directories sample_dirs) = None /\
  layout_ok (createDirectory (sample_directory "cellar" "Cellar") (Fulfilled JNull)
               sample_dirs).2 = true /\
  getDirectory "cellar"
    (createDirectory (sample_directory "cellar" "Cellar") (Fulfilled JNull)
       sample_dirs).2 = Fulfilled 3%nat.
Proof.
  split; [reflexivity|]. split; [reflexivity|].
  destruct (createDirectory_appends (sample_directory "cellar" "Cellar") JNull
              sample_dirs eq_refl eq_refl eq_refl) as (_ & _ & _ & _ & H5 & H6).
  split; assumption.
Defined.

Lemma close_gap_closed a st d :
  close_gap a st d = match st !! d with
                     | Some x => <[d := gap_closed a x]> st
                     | None => st
                     end.
Proof.
  unfold close_gap, gap_closed. destruct (st !! d) as [x|] eqn:E; [|done].
  destruct (num_lt a (layoutIndex x)); [done|]. by rewrite list_insert_id.
Qed.

Lemma close_loop a vs st :
  NoDup vs ->
  forall r, foldl (close_gap a) st vs !! r =
            if decide (r ∈ vs) then gap_closed a <$> st !! r else st !! r.
Proof.
  revert st. induction vs as [|d vs IH]; intros st Hnd r.
  { simpl. destruct (decide (r ∈ [])) as [H|]; [by apply elem_of_nil in H | done]. }
  apply NoDup_cons in Hnd as [Hd Hnd]. simpl. rewrite (IH _ Hnd), close_gap_closed.
  destruct (decide (r = d)) as [->|Hne].
  - rewrite decide_False by done. rewrite decide_True by apply list_elem_of_here.
    destruct (st !! d) as [x|] eqn:E; simpl; [|by rewrite E].
    rewrite list_lookup_insert_eq by (by eapply lookup_lt_Some). done.
  - assert (match st !! d with
            | Some x => <[d:=gap_closed a x]> st
            | None => st
            end !! r = st !! r) as ->.
    { destruct (st !! d); [|done]. by rewrite list_lookup_insert_ne. }
    destruct (decide (r ∈ vs)) as [Hin|Hnin].
    + by rewrite decide_True by (by apply list_elem_of_further).
    + rewrite decide_False; [done|].
      intros H. by apply elem_of_cons in H as [?|?].
Qed.

Lemma gap_closed_fields a x :
  dir_id (gap_closed a x) = dir_id x /\ dir_href (gap_closed a x) = dir_href x /\
  dir_title (gap_closed a x) = dir_title x.
Proof. unfold gap_closed. by case_match. Qed.

Lemma gap_closed_layoutIndex a x z :
  layoutIndex x = Fin z ->
  layoutIndex (gap_closed (Fin a) x) = Fin (closed_index a z).
Proof.
  intros Hz. unfold gap_closed, closed_index. rewrite Hz. simpl.
  destruct (a <? z)%Z; simpl; [done | by rewrite Hz].
Qed.

Lemma Map_get_app {A} (k : string) (m1 m2 : list (string * A)) :
  Map_get k (m1 ++ m2) =
    match Map_get k m1 with
    | Some y => Some y
    | None => Map_get k m2
    end.
Proof.
  induction m1 as [|[k0 y] m1 IH]; simpl; [done|].
  by destruct (String.eqb k k0).
Qed.

Lemma Map_get_split {A} (k : string) (x : A) (m : list (string * A)) :
  Map_get k m = Some x ->
  exists m1 m2, m = m1 ++ (k, x) :: m2 /\ Map_get k m1 = None /\
                Map_delete k m = m1 ++ m2.
Proof.
  induction m as [|[k0 y] m IH]; simpl; [done|].
  destruct (String.eqb_spec k k0) as [->|Hne].
  - intros [= ->]. by exists [], m.
  - intros H. destruct (IH H) as (m1 & m2 & -> & Hm1 & ->).
    exists ((k0, y) :: m1), m2. simpl.
    apply String.eqb_neq in Hne. by rewrite Hne.
Qed.

Lemma NoDup_middle {A} (l1 l2 : list A) (x : A) :
  NoDup (l1 ++ x :: l2) -> NoDup (l1 ++ l2) /\ x ∉ l1 ++ l2.
Proof.
  intros (H1 & H2 & [H3 H4]%NoDup_cons)%NoDup_app. split.
  - apply NoDup_app. split; [done|]. split; [|done].
    intros y Hy Hy'. apply (H2 y Hy). by apply list_elem_of_further.
  - intros [Hx|Hx]%elem_of_app; [|done]. apply (H2 x Hx). apply list_elem_of_here.
Qed.

Lemma closed_index_inj a z1 z2 :
  z1 <> a -> z2 <> a -> closed_index a z1 = closed_index a z2 -> z1 = z2.
Proof. unfold closed_index. intros. case_bools; lia. Qed.

Lemma closed_index_range a z n :
  (0 <= a < n)%Z -> (0 <= z < n)%Z -> z <> a ->
  (0 <= closed_index a z < n - 1)%Z.
Proof. unfold closed_index. intros. case_bools; lia. Qed.

Lemma closed_index_order a z1 z2 :
  z1 <> a -> z2 <> a ->
  ((z1 < z2)%Z <-> (closed_index a z1 < closed_index a z2)%Z).
Proof. unfold closed_index. intros. case_bools; lia. Qed.

(** What the removal does: the entry of the id goes, the others keep
    their places in the map, and every directory behind the removed one
    moves one index down. *)
Lemma removeDirectory_world id directory w :
  layout_ok w = true ->
  Map_get id (directories w) = Some directory ->
  exists m1 m2 a,
    directories w = m1 ++ (id, directory) :: m2 /\
    Map_get id m1 = None /\
    layoutIndex <$> dir_store w !! directory = Some (Fin a) /\
    (0 <= a < Z.of_nat (length (directories w)))%Z /\
    removeDirectory id (Fulfilled tt) w =
      (Fulfilled tt,
       mkDirs (m1 ++ m2)
         (foldl (close_gap (Fin a)) (dir_store w) (Map_values (m1 ++ m2)))
         (getDirectoriesPromise w)
         (dir_events w ++ [CallDirectoryRemove directory; EmitLayoutModified;
                           EmitDirectoryRemoved directory])).
Proof.
  intros Hok Hget. pose proof Hok as (_ & _ & Hrange)%layout_ok_spec.
  destruct (Hrange directory (Map_get_values _ _ _ Hget)) as (x & a & Hx & Ha & Hra).
  destruct (Map_get_split id directory _ Hget) as (m1 & m2 & Hm & Hm1 & Hdel).
  exists m1, m2, a. rewrite Hx. simpl. rewrite Ha. do 4 (split; [done|]).
  unfold removeDirectory. by rewrite Hget, Hx, Hdel, Ha.
Qed.

Lemma removeDirectory_objects id directory w :
  layout_ok w = true ->
  Map_get id (directories w) = Some directory ->
  let w' := (removeDirectory id (Fulfilled tt) w).2 in
  exists a,
    layoutIndex <$> dir_store w !! directory = Some (Fin a) /\
    (0 <= a < Z.of_nat (length (directories w)))%Z /\
    NoDup (Map_values (directories w')) /\
    (forall r, r ∈ Map_values (directories w') <->
               r ∈ Map_values (directories w) /\ r <> directory) /\
    (forall r x z,
        r ∈ Map_values (directories w') ->
        dir_store w !! r = Some x -> layoutIndex x = Fin z ->
        z <> a /\
        exists x', dir_store w' !! r = Some x' /\
                   layoutIndex x' = Fin (closed_index a z) /\
                   dir_id x' = dir_id x /\ dir_href x' = dir_href x /\
                   dir_title x' = dir_title x) /\
    (forall r, r ∉ Map_values (directories w') ->
               dir_store w' !! r = dir_store w !! r).
Proof.
  intros Hok Hget w'. subst w'.
  destruct (removeDirectory_world id directory w Hok Hget)
    as (m1 & m2 & a & Hm & Hm1 & Ha & Hra & ->). cbn [snd directories dir_store].
  pose proof (layout_ok_NoDup_values w Hok) as Hnd.
  assert (Map_values (directories w) =
          Map_values m1 ++ directory :: Map_values m2) as Hvs.
  { rewrite Hm. unfold Map_values. by rewrite fmap_app. }
  assert (Map_values (m1 ++ m2) = Map_values m1 ++ Map_values m2) as Hvs'.
  { unfold Map_values. by rewrite fmap_app. }
  rewrite Hvs in Hnd. apply NoDup_middle in Hnd as [Hnd' Hnotin].
  exists a. do 2 (split; [done|]). rewrite Hvs'. split; [done|].
  assert (forall r, r ∈ Map_values m1 ++ Map_values m2 <->
                    r ∈ Map_values (directories w) /\ r <> directory) as Hiff.
  { intros r. rewrite Hvs, !elem_of_app, elem_of_cons. split.
    - intros Hr. split; [tauto|]. intros ->. apply Hnotin. apply elem_of_app. tauto.
    - intros [[?|[?|?]] ?]; tauto. }
  split; [done|]. split.
  - intros r x z Hr Hx Hz. apply Hiff in Hr as Hr'. destruct Hr' as [Hr' Hne].
    assert (z <> a) as Hza.
    { intros ->. apply Hne. symmetry.
      apply (layout_ok_index_inj w directory r Hok (Map_get_values _ _ _ Hget) Hr').
      rewrite Ha, Hx. simpl. by rewrite Hz. }
    split; [done|]. rewrite (close_loop _ _ _ Hnd'), decide_True by done.
    rewrite Hx. simpl. eexists. split; [done|].
    split; [by apply gap_closed_layoutIndex | apply gap_closed_fields].
  - intros r Hr. by rewrite (close_loop _ _ _ Hnd'), decide_False.
Qed.

Lemma removeDirectory_layout_ok id directory w :
  layout_ok w = true ->
  Map_get id (directories w) = Some directory ->
  layout_ok (removeDirectory id (Fulfilled tt) w).2 = true /\
  Map_get id (directories (removeDirectory id (Fulfilled tt) w).2) = None /\
  S (length (directories (removeDirectory id (Fulfilled tt) w).2)) =
    length (directories w) /\
  (forall id', id' <> id ->
     Map_get id' (directories (removeDirectory id (Fulfilled tt) w).2) =
     Map_get id' (directories w)).
Proof.
  intros Hok Hget.
  destruct (removeDirectory_objects id directory w Hok Hget)
    as (a & Ha & Hra & Hnd' & Hiff & Hin & _).
  destruct (removeDirectory_world id directory w Hok Hget)
    as (m1 & m2 & a' & Hm & Hm1 & _ & _ & Hw).
  rewrite Hw in *. cbn [snd directories dir_store] in *.
  pose proof Hok as (Hk & _ & Hrange)%layout_ok_spec.
  rewrite Hm, fmap_app, fmap_cons in Hk. apply NoDup_middle in Hk as [Hk' Hid].
  assert (length (directories w) = S (length (m1 ++ m2))) as Hlen.
  { rewrite Hm, !length_app. simpl. lia. }
  assert (Map_get id m2 = None) as Hm2.
  { apply Map_get_None_keys. intros H. apply Hid. apply elem_of_app. by right. }
  split; [|split; [|split]].
  - apply layout_ok_spec. cbn [directories dir_store]. split; [by rewrite fmap_app|].
    split.
    + unfold layout. cbn [directories dir_store]. apply NoDup_fmap_2_strong; [|done].
      intros r1 r2 Hr1 Hr2 Heq.
      apply Hiff in Hr1 as Hr1'. apply Hiff in Hr2 as Hr2'.
      destruct Hr1' as [Hr1' _], Hr2' as [Hr2' _].
      destruct (Hrange r1 Hr1') as (x1 & z1 & Hx1 & Hz1 & _).
      destruct (Hrange r2 Hr2') as (x2 & z2 & Hx2 & Hz2 & _).
      destruct (Hin r1 x1 z1 Hr1 Hx1 Hz1) as (Hza1 & x1' & Hx1' & Hz1' & _).
      destruct (Hin r2 x2 z2 Hr2 Hx2 Hz2) as (Hza2 & x2' & Hx2' & Hz2' & _).
      rewrite Hx1', Hx2' in Heq. simpl in Heq. rewrite Hz1', Hz2' in Heq.
      injection Heq as Heq. apply closed_index_inj in Heq; [|done..]. subst z2.
      apply (layout_ok_index_inj w r1 r2 Hok Hr1' Hr2').
      rewrite Hx1, Hx2. simpl. congruence.
    + intros r Hr. apply Hiff in Hr as Hr'. destruct Hr' as [Hr' _].
      destruct (Hrange r Hr') as (x & z & Hx & Hz & Hrz).
      destruct (Hin r x z Hr Hx Hz) as (Hza & x' & Hx' & Hz' & _).
      exists x', (closed_index a z). do 2 (split; [done|]).
      pose proof (closed_index_range a z _ Hra Hrz Hza). lia.
  - by rewrite Map_get_app, Hm1.
  - done.
  - intros id' Hne. rewrite Hm, !Map_get_app. simpl.
    apply String.eqb_neq in Hne. by rewrite Hne.
Qed.

(** X22. Removing a directory closes the gap it leaves: its id is no
    longer in the map, the other ids keep their objects, every directory
    that came after the removed one moves one index down, none moves
    otherwise, and the layout is again [0 .. n-2], each once.  The
    collection calls [remove] on the directory and emits the layout change
    and then the removal.  While other directories remain, [getDirectory]
    of the removed id rejects with the error of an id that is not found;
    when the removed directory was the only one, the map is empty, and
    [getDirectory] goes through [getDirectories] to the database: with no
    request under way it starts one and waits for it, with a request under
    way it waits for that one, and after a failed request it rejects with
    the failure of that request. *)
Theorem removeDirectory_closes_gap (id : string) (directory : nat) (w : Dirs) :
  layout_ok w = true ->
  Map_get id (directories w) = Some directory ->
  let w' := (removeDirectory id (Fulfilled tt) w).2 in
  layout_ok w' = true /\
  Map_get id (directories w') = None /\
  ((1 < length (directories w))%nat ->
   getDirectory_call id w' =
     (LookupSettled
        (Rejected (JStr ("Unable to find directory with id = " +:+ id))), w')) /\
  (length (directories w) = 1%nat ->
   getDirectory_call id w' =
     match getDirectoriesPromise w with
     | NoPromise =>
         (LookupPending,
          mkDirs [] (dir_store w') PendingPromise
            (dir_events w' ++ [CallDatabaseGetDirectories]))
     | PendingPromise => (LookupPending, w')
     | RejectedPromise e => (LookupSettled (Rejected e), w')
     end) /\
  S (length (directories w')) = length (directories w) /\
  (forall id', id' <> id ->
               Map_get id' (directories w') = Map_get id' (directories w)) /\
  (exists a,
      layoutIndex <$> dir_store w !! directory = Some (Fin a) /\
      forall id' r x z,
        id' <> id -> Map_get id' (directories w) = Some r ->
        dir_store w !! r = Some x -> layoutIndex x = Fin z ->
        exists x', dir_store w' !! r = Some x' /\
                   layoutIndex x' = Fin (if (a <? z)%Z then z - 1 else z) /\
                   dir_id x' = dir_id x /\ dir_href x' = dir_href x /\
                   dir_title x' = dir_title x) /\
  dir_events w' =
    dir_events w ++ [CallDirectoryRemove directory; EmitLayoutModified;
                     EmitDirectoryRemoved directory].
Proof.
  intros Hok Hget w'.
  destruct (removeDirectory_layout_ok id directory w Hok Hget)
    as (Hok' & Hgone & Hlen & Hothers). fold w' in Hok', Hgone, Hlen, Hothers.
  destruct (removeDirectory_objects id directory w Hok Hget)
    as (a & Ha & _ & _ & _ & Hin & _). fold w' in Hin.
  assert (getDirectoriesPromise w' = getDirectoriesPromise w) as Hpromise.
  { subst w'.
    destruct (removeDirectory_world id directory w Hok Hget)
      as (m1 & m2 & a' & _ & _ & _ & _ & ->). done. }
  do 2 (split; [done|]). split; [|split].
  { intros Hmore. unfold getDirectory_call, getDirectories.
    assert ((0 <? length (directories w'))%nat = true) as ->
      by (apply Nat.ltb_lt; lia).
    by rewrite Hgone. }
  { intros Hone. unfold getDirectory_call, getDirectories.
    assert (directories w' = []) as Hnil
      by (apply length_zero_iff_nil; lia).
    rewrite Hnil, Hpromise. by destruct (getDirectoriesPromise w). }
  do 2 (split; [done|]). split.
  - exists a. split; [done|]. intros id' r x z Hne Hget' Hx Hz.
    rewrite <- (Hothers id' Hne) in Hget'. apply Map_get_values in Hget'.
    destruct (Hin r x z Hget' Hx Hz) as (_ & x' & ? & ? & ?). by exists x'.
  - subst w'.
    destruct (removeDirectory_world id directory w Hok Hget)
      as (m1 & m2 & a' & _ & _ & _ & _ & ->). done.
Qed.

(** The kitchen, first of three, is removed: garage and attic move up. *)
Lemma removeDirectory_closes_gap_witness :
  layout_ok sample_dirs = true /\
  Map_get "kitchen" (directories sample_dirs) = Some 0%nat /\
  layout_ok (removeDirectory "kitchen" (Fulfilled tt) sample_dirs).2 = true /\
  Map_get "kitchen"
    (directories (removeDirectory "kitchen" (Fulfilled tt) sample_dirs).2) = None /\
  getDirectory_call "kitchen"
    (removeDirectory "kitchen" (Fulfilled tt) sample_dirs).2 =
    (LookupSettled (Rejected (JStr "Unable to find directory with id = kitchen")),
     (removeDirectory "kitchen" (Fulfilled tt) sample_dirs).2).
Proof.
  split; [reflexivity|]. split; [reflexivity|].
  destruct (removeDirectory_closes_gap "kitchen" 0 sample_dirs eq_refl eq_refl)
    as (H1 & H2 & H3 & _).
  split; [exact H1|]. split; [exact H2|]. apply H3. simpl. lia.
Defined.

Lemma Map_delete_app_new {A} (k : string) (x : A) (m : list (string * A)) :
  Map_get k m = None -> Map_delete k (m ++ [(k, x)]) = m.
Proof.
  induction m as [|[k0 y] m IH]; simpl.
  - by rewrite String.eqb_refl.
  - destruct (String.eqb k k0); [done|]. intros H. by rewrite IH.
Qed.

Lemma gap_closed_before n x z :
  layoutIndex x = Fin z -> (z < n)%Z -> gap_closed (Fin n) x = x.
Proof.
  intros Hz Hlt. unfold gap_closed. rewrite Hz. simpl.
  by assert ((n <? z)%Z = false) as -> by (apply Z.ltb_ge; lia).
Qed.

(** X23. Creating a directory and removing it again leaves the collection
    as it was: the map is the one from before, no other directory object
    has changed, and the id is no longer in the map, so that removing it
    once more succeeds without doing or emitting anything; if the
    collection had a directory before, [getDirectory] of the id rejects
    with the error of an id that is not found. *)
Theorem create_then_remove_restores (d : Directory) (desc : jsval) (w : Dirs) :
  layout_ok w = true ->
  Map_get (dir_id d) (directories w) = None ->
  num_le (Fin (Z.of_nat (length (directories w)) - 1)) (layoutIndex d) = true ->
  let w1 := (createDirectory d (Fulfilled desc) w).2 in
  let w2 := (removeDirectory (dir_id d) (Fulfilled tt) w1).2 in
  directories w2 = directories w /\
  dir_store w2 =
    dir_store w ++ [setLayoutIndex (Fin (Z.of_nat (length (directories w)))) d] /\
  layout w2 = layout w /\
  Map_get (dir_id d) (directories w2) = None /\
  removeDirectory (dir_id d) (Fulfilled tt) w2 = (Fulfilled tt, w2) /\
  ((0 < length (directories w))%nat ->
   getDirectory_call (dir_id d) w2 =
     (LookupSettled
        (Rejected (JStr ("Unable to find directory with id = " +:+ dir_id d))),
      w2)).
Proof.
  intros Hok Hnew Hidx w1 w2.
  pose proof Hok as (_ & _ & Hrange)%layout_ok_spec.
  pose proof (layout_ok_NoDup_values w Hok) as Hnd.
  assert (directories w2 = directories w /\
          dir_store w2 =
            dir_store w ++
              [setLayoutIndex (Fin (Z.of_nat (length (directories w)))) d])
    as [Hdirs Hstore].
  { subst w2 w1. rewrite (createDirectory_world d desc w Hok Hnew Hidx). cbn [snd].
    unfold removeDirectory. cbn [directories dir_store].
    rewrite Map_get_app_new, Hnew, String.eqb_refl.
    rewrite list_lookup_middle by done.
    rewrite (Map_delete_app_new _ _ _ Hnew). cbn [snd directories dir_store].
    split; [done|]. apply list_eq. intros r.
    rewrite (close_loop _ _ _ Hnd). case_decide as Hin; [|done].
    destruct (Hrange r Hin) as (x & z & Hx & Hz & Hrz).
    rewrite lookup_app_l by (by eapply lookup_lt_Some). rewrite Hx. simpl.
    f_equal. apply (gap_closed_before _ _ z); [done|]. simpl. lia. }
  split; [done|]. split; [done|]. split; [|split; [|split]].
  - unfold layout. rewrite Hdirs, Hstore. apply list_fmap_ext. intros i r Hr.
    apply list_elem_of_lookup_2 in Hr. destruct (Hrange r Hr) as (x & _ & Hx & _).
    by rewrite lookup_app_l by (by eapply lookup_lt_Some).
  - by rewrite Hdirs, Hnew.
  - unfold removeDirectory. by rewrite Hdirs, Hnew.
  - intros Hsome. unfold getDirectory_call, getDirectories. rewrite Hdirs.
    assert ((0 <? length (directories w))%nat = true) as ->
      by (by apply Nat.ltb_lt).
    by rewrite Hnew.
Qed.

Lemma create_then_remove_restores_witness :
  directories (removeDirectory "cellar" (Fulfilled tt)
                 (createDirectory (sample_directory "cellar" "Cellar")
                    (Fulfilled JNull) sample_dirs).2).2 = directories sample_dirs /\
  layout (removeDirectory "cellar" (Fulfilled tt)
            (createDirectory (sample_directory "cellar" "Cellar")
               (Fulfilled JNull) sample_dirs).2).2 = layout sample_dirs /\
  Map_get "cellar"
    (directories (removeDirectory "cellar" (Fulfilled tt)
                    (createDirectory (sample_directory "cellar" "Cellar")
                       (Fulfilled JNull) sample_dirs).2).2) = None.
Proof.
  destruct (create_then_remove_restores (sample_directory "cellar" "Cellar") JNull
              sample_dirs eq_refl eq_refl eq_refl) as (H1 & _ & H3 & H4 & _).
  repeat split; assumption.
Defined.

(** ** Loading the collection *)

Lemma load_rows (rows : list Directory) (m : list (string * nat))
    (st : list Directory) :
  NoDup (dir_id <$> rows) ->
  (forall row, row ∈ rows -> Map_get (dir_id row) m = None) ->
  foldl load_row (m, st) rows =
    (m ++ zip (dir_id <$> rows) (seq (length st) (length rows)), st ++ rows).
Proof.
  revert m st. induction rows as [|row rows IH]; intros m st Hnd Hnew.
  { simpl. by rewrite !app_nil_r. }
  rewrite fmap_cons in Hnd. apply NoDup_cons in Hnd as [Hrow Hnd].
  simpl. unfold load_row at 2. cbn [fst snd].
  rewrite Map_set_new by (apply Hnew, list_elem_of_here).
  rewrite IH; [|done|].
  - rewrite length_app. simpl. rewrite Nat.add_1_r, <- !app_assoc. done.
  - intros row' Hrow'. rewrite Map_get_app_new.
    rewrite Hnew by (by apply list_elem_of_further).
    destruct (String.eqb_spec (dir_id row') (dir_id row)) as [Heq|]; [|done].
    exfalso. apply Hrow. rewrite <- Heq. by apply list_elem_of_fmap_2.
Qed.

Lemma Map_get_zip (rows : list Directory) (base i : nat) (row : Directory) :
  NoDup (dir_id <$> rows) ->
  rows !! i = Some row ->
  Map_get (dir_id row) (zip (dir_id <$> rows) (seq base (length rows))) =
    Some (base + i)%nat.
Proof.
  revert base i. induction rows as [|row0 rows IH]; intros base i Hnd Hi; [done|].
  rewrite fmap_cons in Hnd. apply NoDup_cons in Hnd as [Hrow Hnd].
  destruct i as [|i]; simpl in *.
  - injection Hi as ->. by rewrite String.eqb_refl, Nat.add_0_r.
  - destruct (String.eqb_spec (dir_id row) (dir_id row0)) as [Heq|].
    + exfalso. apply Hrow. rewrite <- Heq. apply list_elem_of_fmap_2.
      by eapply list_elem_of_lookup_2.
    + rewrite Nat.add_succ_r. apply (IH (S base) i Hnd Hi).
Qed.

(** X24. When the database answers the request of [getDirectories], the
    map is built anew from the rows, whatever it held before: each row has
    an object of its own, found under the id of the row, and the field of
    the promise is cleared.  A collection so loaded with at least one row
    answers [getDirectories] at once, without asking the database. *)
Theorem getDirectories_loads_rows (rows : list Directory) (w : Dirs)
    (i : nat) (row : Directory) :
  getDirectoriesPromise w = PendingPromise ->
  NoDup (dir_id <$> rows) ->
  rows !! i = Some row ->
  let w1 := getDirectories_settled (Fulfilled rows) w in
  length (directories w1) = length rows /\
  dir_store w1 = dir_store w ++ rows /\
  getDirectoriesPromise w1 = NoPromise /\
  getDirectory (dir_id row) w1 = Fulfilled (length (dir_store w) + i)%nat /\
  dir_store w1 !! (length (dir_store w) + i)%nat = Some row /\
  getDirectories w1 = (AnswerMap (directories w1), w1).
Proof.
  intros Hp Hnd Hi w1. subst w1. unfold getDirectories_settled. rewrite Hp.
  rewrite (load_rows rows [] (dir_store w) Hnd) by done.
  cbn [fst snd app directories dir_store getDirectoriesPromise].
  assert (length (zip (dir_id <$> rows) (seq (length (dir_store w)) (length rows)))
          = length rows) as Hlen.
  { rewrite length_zip_with, length_fmap, length_seq. lia. }
  do 3 (split; [done|]). split; [|split].
  - unfold getDirectory. cbn [directories]. by rewrite (Map_get_zip rows _ i row).
  - by rewrite lookup_app_r, Nat.add_comm, Nat.add_sub by lia.
  - unfold getDirectories. cbn [directories]. rewrite Hlen.
    apply lookup_lt_Some in Hi.
    by assert ((0 <? length rows)%nat = true) as -> by (apply Nat.ltb_lt; lia).
Qed.

Lemma getDirectories_loads_rows_witness :
  getDirectory "garage"
    (getDirectories_settled
       (Fulfilled [mkDirectory "kitchen" "/directories/kitchen" "Kitchen" (Fin 0);
                   mkDirectory "garage" "/directories/garage" "Garage" (Fin 1)])
       (getDirectories new_Directories).2) = Fulfilled 1%nat.
Proof.
  apply (getDirectories_loads_rows
           [mkDirectory "kitchen" "/directories/kitchen" "Kitchen" (Fin 0);
            mkDirectory "garage" "/directories/garage" "Garage" (Fin 1)]
           (getDirectories new_Directories).2 1
           (mkDirectory "garage" "/directories/garage" "Garage" (Fin 1)));
    [reflexivity | compute_done | reflexivity].
Defined.

(** X25. While the collection is empty, the database is asked once and
    the request is shared: a second [getDirectories] before the answer
    makes no second request.  When the request fails, the rejected promise
    stays in its field: every later call is answered with that rejection
    and the database is not asked again.  When the database answers with no
    rows, nothing is kept: the next call asks again. *)
Theorem getDirectories_requests (w : Dirs) (e : jsval) :
  directories w = [] ->
  getDirectoriesPromise w = NoPromise ->
  let w1 := (getDirectories w).2 in
  let failed := getDirectories_settled (Rejected e) w1 in
  let empty := getDirectories_settled (Fulfilled []) w1 in
  (getDirectories w).1 = AnswerPending /\
  dir_events w1 = dir_events w ++ [CallDatabaseGetDirectories] /\
  getDirectories w1 = (AnswerPending, w1) /\
  getDirectories failed = (AnswerRejected e, failed) /\
  dir_events failed = dir_events w1 /\
  (getDirectories empty).1 = AnswerPending /\
  dir_events (getDirectories empty).2 =
    dir_events w1 ++ [CallDatabaseGetDirectories].
Proof.
  intros Hd Hp w1 failed empty. subst failed empty w1.
  unfold getDirectories, getDirectories_settled. rewrite Hd, Hp. simpl.
  repeat split.
Qed.

Lemma getDirectories_requests_witness :
  getDirectories (getDirectories_settled (Rejected (JStr "SQLITE_CANTOPEN"))
                    (getDirectories new_Directories).2) =
    (AnswerRejected (JStr "SQLITE_CANTOPEN"),
     getDirectories_settled (Rejected (JStr "SQLITE_CANTOPEN"))
       (getDirectories new_Directories).2).
Proof.
  apply (getDirectories_requests new_Directories (JStr "SQLITE_CANTOPEN")
           eq_refl eq_refl).
Defined.

(** ** Listing by href *)

(** X26. [getListDirectories] lists exactly the directories of the
    collection whose href is among the requested ones; an href that no
    directory has adds nothing and raises nothing.  The list goes href by
    href: the list for two lists of hrefs one after the other is the two
    lists one after the other. *)
Theorem getListDirectories_lists_matches (hrefs1 hrefs2 : list string) (w : Dirs)
    (r : nat) :
  (r ∈ getListDirectories hrefs1 w <->
   r ∈ Map_values (directories w) /\
   exists x, dir_store w !! r = Some x /\ dir_href x ∈ hrefs1) /\
  getListDirectories (hrefs1 ++ hrefs2) w =
    getListDirectories hrefs1 w ++ getListDirectories hrefs2 w.
Proof.
  split; [|apply flat_map_app].
  unfold getListDirectories. rewrite list_elem_of_In, in_flat_map. split.
  - intros (href & Hhref & Hin). apply filter_In in Hin as [Hin Hh].
    apply list_elem_of_In in Hin, Hhref. split; [done|]. unfold has_href in Hh.
    destruct (dir_store w !! r) as [x|]; [|done]. exists x. split; [done|].
    apply String.eqb_eq in Hh. by rewrite Hh.
  - intros (Hin & x & Hx & Hhref). exists (dir_href x).
    split; [by apply list_elem_of_In|]. apply filter_In.
    split; [by apply list_elem_of_In|]. unfold has_href.
    by rewrite Hx, String.eqb_refl.
Qed.
